(** * DirectMethodMqttClient: the connection life cycle of the Python SDK

    Shallow embedding of
    [packages/sdk-python/src/direct_method_mqtt/client.py].

    The client object, the protocol engine it drives (paho-mqtt) and the
    module logger are modelled by explicit state passing.  A method is a
    function from the state before the call to the state after it together
    with its outcome, which is either a return value or a raised exception.

    Scope of the model.
    - Exceptions are instances of Python's [Exception]; the system-exiting
      signals that derive from [BaseException] only are not represented, so
      [except Exception] handles every exception of the model.
    - Time passes only inside [time.sleep]; the handlers that the engine's
      network-loop thread invokes while the caller waits in [connect] are
      given, per sleep, by the environment of the call.
    - The engine is an environment: what its calls return or raise is an
      input of each method. *)

From Stdlib Require Import ZArith NArith QArith Qround Bool List Ascii String Lia Lqa.
Import ListNotations.

Local Open Scope Z_scope.
Local Set Warnings "-register-all".

(* ================================================================== *)
(** ** Python values *)

(** A Python [str] is a sequence of Unicode code points, [bytes] a sequence
    of octets. *)
Definition str := list N.
Definition bytes := list N.

(** An ASCII literal as a [str]. *)
Definition text (s : string) : str :=
  map N_of_ascii (list_ascii_of_string s).

(** [ch.isspace()]: the code points Python treats as whitespace. *)
Definition isspace (c : N) : bool :=
  ((9 <=? c) && (c <=? 13) || (28 <=? c) && (c <=? 32)
   || (c =? 133) || (c =? 160) || (c =? 5760)
   || (8192 <=? c) && (c <=? 8202)
   || (c =? 8232) || (c =? 8233) || (c =? 8239) || (c =? 8287)
   || (c =? 12288))%N.

Fixpoint lstrip (s : str) : str :=
  match s with
  | [] => []
  | c :: s' => if isspace c then lstrip s' else s
  end.

Definition rstrip (s : str) : str := rev (lstrip (rev s)).

(** [s.strip()] *)
Definition strip (s : str) : str := rstrip (lstrip s).

(** [not s] for a string: only the empty string is falsy. *)
Definition not_ (s : str) : bool :=
  match s with [] => true | _ :: _ => false end.

(** [s[:n]] *)
Definition slice_to (n : nat) (s : str) : str := firstn n s.

(* ------------------------------------------------------------------ *)
(** *** Exception classes *)

(** The built-in classes the client and the engine raise, and classes
    derived from them by user code. *)
Inductive pyclass : Type :=
| Exception
| TypeError
| ValueError
| UnicodeError
| UnicodeDecodeError
| RuntimeError
| OSError
| ConnectionError
| ConnectionRefusedError
| TimeoutError
| Derived (name : string) (base : pyclass).

Definition pyclass_eq_dec (a b : pyclass) : {a = b} + {a <> b}.
Proof. decide equality; apply string_dec. Defined.

(** The proper ancestors of a class below [Exception], nearest first. *)
Fixpoint bases (c : pyclass) : list pyclass :=
  match c with
  | Exception => []
  | TypeError | ValueError | RuntimeError | OSError => [Exception]
  | UnicodeError => [ValueError; Exception]
  | UnicodeDecodeError => [UnicodeError; ValueError; Exception]
  | ConnectionError | TimeoutError => [OSError; Exception]
  | ConnectionRefusedError => [ConnectionError; OSError; Exception]
  | Derived _ b => b :: bases b
  end.

Definition issubclass (c d : pyclass) : bool :=
  if pyclass_eq_dec c d then true
  else existsb (fun b => if pyclass_eq_dec b d then true else false) (bases c).

(* ------------------------------------------------------------------ *)
(** *** Formatted strings and exceptions *)

(** An f-string is kept as its fragments: literal text and the values
    interpolated into it.  [Quote] is a double-quote character;
    [ErrorString] and [ConnackString] stand for the engine's
    [mqtt.error_string(rc)] and [mqtt.connack_string(rc)]. *)
Inductive frag : Type :=
| Lit (s : string)
| FStr (s : str)
| FInt (n : Z)
| FSeconds (t : Q)
| FList (l : list Z)
| Quote
| ErrorString (rc : Z)
| ConnackString (rc : Z).

Definition fstring := list frag.

(** An exception instance: its class, its message and the exception it was
    raised [from]. *)
Inductive exn : Type :=
| mk_exn (cls : pyclass) (args : fstring) (cause : option exn).

Definition exn_class (e : exn) : pyclass :=
  match e with mk_exn c _ _ => c end.

(** [str(e)] *)
Definition exn_str (e : exn) : fstring :=
  match e with mk_exn _ m _ => m end.

Definition exn_cause (e : exn) : option exn :=
  match e with mk_exn _ _ c => c end.

Definition isinstance (e : exn) (c : pyclass) : bool :=
  issubclass (exn_class e) c.

(** The outcome of a call. *)
Inductive result (A : Type) : Type :=
| Ok (a : A)
| Raise (e : exn).
Arguments Ok {A} a.
Arguments Raise {A} e.

Definition is_ok {A} (r : result A) : bool :=
  match r with Ok _ => true | Raise _ => false end.

(* ------------------------------------------------------------------ *)
(** *** [bytes.decode('utf-8')] *)

Definition continuation (b : N) : bool := ((128 <=? b) && (b <=? 191))%N.

(** Strict UTF-8: overlong forms, surrogates and code points above
    U+10FFFF are refused. *)
Fixpoint utf8_points (bs : bytes) : option str :=
  match bs with
  | [] => Some []
  | b0 :: r0 =>
    if (b0 <? 128)%N then option_map (cons b0) (utf8_points r0)
    else if ((194 <=? b0) && (b0 <=? 223))%N then
      match r0 with
      | b1 :: r1 =>
        if continuation b1
        then option_map (cons ((b0 - 192) * 64 + (b1 - 128))%N) (utf8_points r1)
        else None
      | _ => None
      end
    else if ((224 <=? b0) && (b0 <=? 239))%N then
      match r0 with
      | b1 :: b2 :: r2 =>
        let lo := if (b0 =? 224)%N then 160%N else 128%N in
        let hi := if (b0 =? 237)%N then 159%N else 191%N in
        if ((lo <=? b1) && (b1 <=? hi))%N && continuation b2
        then option_map
               (cons ((b0 - 224) * 4096 + (b1 - 128) * 64 + (b2 - 128))%N)
               (utf8_points r2)
        else None
      | _ => None
      end
    else if ((240 <=? b0) && (b0 <=? 244))%N then
      match r0 with
      | b1 :: b2 :: b3 :: r3 =>
        let lo := if (b0 =? 240)%N then 144%N else 128%N in
        let hi := if (b0 =? 244)%N then 143%N else 191%N in
        if ((lo <=? b1) && (b1 <=? hi))%N && continuation b2 && continuation b3
        then option_map
               (cons ((b0 - 240) * 262144 + (b1 - 128) * 4096
                      + (b2 - 128) * 64 + (b3 - 128))%N)
               (utf8_points r3)
        else None
      | _ => None
      end
    else None
  end.

Definition decode_utf8 (bs : bytes) : result str :=
  match utf8_points bs with
  | Some s => Ok s
  | None =>
    Raise (mk_exn UnicodeDecodeError
                  [Lit "'utf-8' codec can't decode bytes"] None)
  end.

(* ================================================================== *)
(** ** The protocol engine and the host *)

(** Constants of [paho.mqtt.client]. *)
Definition MQTT_ERR_SUCCESS : Z := 0.
Definition MQTTv311 : Z := 4.
Definition MQTT_LOG_WARNING : Z := 4.

(** The calls the client issues on its engine instance [self._client]. *)
Inductive engine_call : Type :=
| mqtt_Client (client_id : str) (protocol : Z)
| client_connect (host : str) (port : Z) (keepalive : Z)
| client_loop_start
| client_loop_stop
| client_disconnect
| client_publish (topic : str) (payload : str) (qos : Z)
| client_subscribe (topic : str) (qos : Z).

Record MQTTMessage : Type := {
  msg_topic : str;
  msg_payload : bytes
}.

(** The events for which the engine invokes a handler of the client. *)
Inductive event : Type :=
| on_connect (rc : Z)
| on_disconnect (rc : Z)
| on_message (msg : MQTTMessage)
| on_publish (mid : Z)
| on_subscribe (mid : Z) (granted_qos : list Z)
| on_log (level : Z) (buf : str).

(** What passes between client and engine, in either direction. *)
Inductive io_event : Type :=
| Call (c : engine_call)
| Handler (ev : event).

Inductive log_level : Type := DEBUG | INFO | WARNING | ERROR.

Definition log_record : Type := (log_level * fstring)%type.

(** Everything outside the client object: the exchange with the engine and
    the records given to the logger, both most recent first, and the clock
    read by [time.time()], in seconds. *)
Record World : Type := {
  io : list io_event;
  logged : list log_record;
  clock : Q
}.

(** The user's message callback [(topic, message) -> None]: it returns
    ([None]) or raises. *)
Definition MessageCallback : Type := str -> str -> option exn.

(** The attributes of a client object. *)
Record DirectMethodMqttClient : Type := {
  _broker_host : str;
  _broker_port : Z;
  _topic : str;
  _client_id : str;
  _is_connected : bool;
  _message_callback : option MessageCallback
}.

Record State : Type := {
  self : DirectMethodMqttClient;
  world : World
}.

(* ------------------------------------------------------------------ *)
(** *** Primitive effects *)

Definition w_call (c : engine_call) (w : World) : World :=
  {| io := Call c :: io w; logged := logged w; clock := clock w |}.

Definition w_log (l : log_level) (m : fstring) (w : World) : World :=
  {| io := io w; logged := (l, m) :: logged w; clock := clock w |}.

Definition call (c : engine_call) (s : State) : State :=
  {| self := self s; world := w_call c (world s) |}.

Definition logger (l : log_level) (m : fstring) (s : State) : State :=
  {| self := self s; world := w_log l m (world s) |}.

Definition handled (ev : event) (s : State) : State :=
  {| self := self s;
     world := {| io := Handler ev :: io (world s);
                 logged := logged (world s);
                 clock := clock (world s) |} |}.

Definition set_is_connected (b : bool) (s : State) : State :=
  {| self := {| _broker_host := _broker_host (self s);
                _broker_port := _broker_port (self s);
                _topic := _topic (self s);
                _client_id := _client_id (self s);
                _is_connected := b;
                _message_callback := _message_callback (self s) |};
     world := world s |}.

Definition set_message_callback (cb : MessageCallback) (s : State) : State :=
  {| self := {| _broker_host := _broker_host (self s);
                _broker_port := _broker_port (self s);
                _topic := _topic (self s);
                _client_id := _client_id (self s);
                _is_connected := _is_connected (self s);
                _message_callback := Some cb |};
     world := world s |}.

(** The polling interval of [connect], [time.sleep(0.1)]. *)
Definition poll_interval : Q := 1 # 10.

Definition sleep (d : Q) (s : State) : State :=
  {| self := self s;
     world := {| io := io (world s);
                 logged := logged (world s);
                 clock := (clock (world s) + d)%Q |} |}.

(** The [is_connected] property. *)
Definition is_connected (s : State) : bool := _is_connected (self s).

(* ================================================================== *)
(** ** Construction *)

Definition ValueError_ (m : string) : exn := mk_exn ValueError [Lit m] None.

(** [DirectMethodMqttClient.__init__].  [uuid4_hex] is what
    [uuid.uuid4().hex] returns. *)
Definition __init__ (broker_host : str) (broker_port : Z) (topic : str)
    (client_id : option str) (uuid4_hex : str) (w : World)
  : World * result DirectMethodMqttClient :=
  if not_ (strip broker_host) then
    (w, Raise (ValueError_ "Broker host cannot be empty"))
  else if negb ((1 <=? broker_port) && (broker_port <=? 65535)) then
    (w, Raise (ValueError_ "Broker port must be between 1 and 65535"))
  else if not_ (strip topic) then
    (w, Raise (ValueError_ "Topic cannot be empty"))
  else
    let generated := text "direct-method-client-" ++ slice_to 8 uuid4_hex in
    let cid :=
      match client_id with
      | Some c => if not_ c then generated else c
      | None => generated
      end in
    (w_call (mqtt_Client cid MQTTv311) w,
     Ok {| _broker_host := broker_host;
           _broker_port := broker_port;
           _topic := topic;
           _client_id := cid;
           _is_connected := false;
           _message_callback := None |}).

(* ================================================================== *)
(** ** Event handlers

    The engine invokes them on its network-loop thread.  Their [client],
    [userdata] and [flags] arguments are never read and are left out. *)

(** [try: body  except Exception as e: handler(e)] *)
Definition try_except {A} (body : State * result A)
    (handler : exn -> State -> State * result A) : State * result A :=
  match body with
  | (s, Ok a) => (s, Ok a)
  | (s, Raise e) => handler e s
  end.

Definition _on_connect (rc : Z) (s : State) : State :=
  if rc =? 0 then
    let s := set_is_connected true s in
    logger INFO [Lit "Connected to MQTT broker at ";
                 FStr (_broker_host (self s)); Lit ":";
                 FInt (_broker_port (self s))] s
  else
    let s := set_is_connected false s in
    logger ERROR [Lit "Connection failed with result code "; FInt rc;
                  Lit ": "; ConnackString rc] s.

Definition _on_disconnect (rc : Z) (s : State) : State :=
  let s := set_is_connected false s in
  if negb (rc =? 0) then
    logger WARNING [Lit "Unexpected disconnection from MQTT broker: ";
                    ErrorString rc] s
  else
    logger INFO [Lit "MQTT connection closed"] s.

Definition _on_message (msg : MQTTMessage) (s : State) : State * result unit :=
  try_except
    (let topic := msg_topic msg in
     match decode_utf8 (msg_payload msg) with
     | Raise e => (s, Raise e)
     | Ok message =>
       match _message_callback (self s) with
       | Some callback =>
         match callback topic message with
         | Some e => (s, Raise e)
         | None => (s, Ok tt)
         end
       | None =>
         (logger INFO [Lit "Received message: "; FStr message;
                       Lit " on topic: "; FStr topic] s, Ok tt)
       end
     end)
    (fun e s =>
       (logger ERROR (Lit "Error processing received message: " :: exn_str e) s,
        Ok tt)).

Definition _on_publish (mid : Z) (s : State) : State :=
  logger DEBUG [Lit "Message "; FInt mid; Lit " published successfully"] s.

Definition _on_subscribe (mid : Z) (granted_qos : list Z) (s : State) : State :=
  logger DEBUG [Lit "Subscription "; FInt mid; Lit " granted with QoS: ";
                FList granted_qos] s.

Definition _on_log (level : Z) (buf : str) (s : State) : State :=
  if level <=? MQTT_LOG_WARNING then logger DEBUG [Lit "MQTT: "; FStr buf] s
  else s.

(** The engine invokes the handler registered for an event.  The outcome is
    what the handler hands back to the network loop. *)
Definition dispatch (ev : event) (s : State) : State * result unit :=
  let s := handled ev s in
  match ev with
  | on_connect rc => (_on_connect rc s, Ok tt)
  | on_disconnect rc => (_on_disconnect rc s, Ok tt)
  | on_message msg => _on_message msg s
  | on_publish mid => (_on_publish mid s, Ok tt)
  | on_subscribe mid granted_qos => (_on_subscribe mid granted_qos s, Ok tt)
  | on_log level buf => (_on_log level buf s, Ok tt)
  end.

(** The network loop handles events one at a time; an exception that leaves
    a handler ends the loop. *)
Fixpoint deliver (evs : list event) (s : State) : State * result unit :=
  match evs with
  | [] => (s, Ok tt)
  | ev :: evs' =>
    match dispatch ev s with
    | (s', Ok _) => deliver evs' s'
    | (s', Raise e) => (s', Raise e)
    end
  end.

(* ================================================================== *)
(** ** Public methods *)

Definition ConnectionError_ (m : fstring) (cause : option exn) : exn :=
  mk_exn ConnectionError m cause.

Definition RuntimeError_ (m : fstring) (cause : option exn) : exn :=
  mk_exn RuntimeError m cause.

(** [a < b] on rationals. *)
Definition Qltb (a b : Q) : bool := negb (Qle_bool b a).

(** What the environment does during one call of [connect]:
    [transport_connect] is what [self._client.connect(...)] returns or
    raises, and the n-th element of [deliveries] lists the events the
    network loop handles during the n-th [time.sleep(0.1)] (none once the
    list is exhausted). *)
Record connect_env : Type := {
  transport_connect : result Z;
  deliveries : list (list event)
}.

(** The wait loop of [connect]:
    [while not self._is_connected and (time.time() - start_time) < timeout:
         time.sleep(0.1)].
    [fuel] bounds the number of iterations; [None] means it ran out. *)
Fixpoint wait_connected (fuel : nat) (deliveries : list (list event))
    (start_time timeout : Q) (s : State) : option State :=
  if negb (is_connected s) && Qltb (clock (world s) - start_time) timeout then
    match fuel with
    | O => None
    | S fuel' =>
      let s := fst (deliver (hd [] deliveries) s) in
      let s := sleep poll_interval s in
      wait_connected fuel' (tl deliveries) start_time timeout s
    end
  else Some s.

(** The [try] block of [connect]. *)
Definition connect_try (fuel : nat) (timeout : Q) (env : connect_env)
    (s : State) : option (State * result unit) :=
  let s := logger INFO [Lit "Connecting to MQTT broker at ";
                        FStr (_broker_host (self s)); Lit ":";
                        FInt (_broker_port (self s))] s in
  let s := call (client_connect (_broker_host (self s))
                                (_broker_port (self s)) 60) s in
  match transport_connect env with
  | Raise e => Some (s, Raise e)
  | Ok result_code =>
    if negb (result_code =? MQTT_ERR_SUCCESS) then
      Some (s, Raise (ConnectionError_
                        [Lit "Failed to initiate connection: ";
                         ErrorString result_code] None))
    else
      let s := call client_loop_start s in
      let start_time := clock (world s) in
      match wait_connected fuel (deliveries env) start_time timeout s with
      | None => None
      | Some s =>
        if negb (is_connected s) then
          let s := call client_loop_stop s in
          Some (s, Raise (ConnectionError_
                            [Lit "Connection timeout after ";
                             FSeconds timeout; Lit " seconds"] None))
        else Some (s, Ok tt)
      end
  end.

(** [connect(timeout)].  The method runs under [self._connection_lock]; a
    method call is one step of the model, so the lock is always free when
    it is taken. *)
Definition connect (fuel : nat) (timeout : Q) (env : connect_env)
    (s : State) : option (State * result unit) :=
  if is_connected s then
    Some (logger INFO [Lit "Already connected to MQTT broker"] s, Ok tt)
  else
    match connect_try fuel timeout env s with
    | None => None
    | Some body =>
      Some (try_except body
              (fun e s =>
                 let s := call client_loop_stop s in
                 if isinstance e ConnectionError then (s, Raise e)
                 else (s, Raise (ConnectionError_
                                   (Lit "Failed to connect to MQTT broker: "
                                        :: exn_str e) (Some e)))))
    end.

(** [disconnect()]; [transport_disconnect] is what
    [self._client.disconnect()] returns or raises. *)
Definition disconnect (transport_disconnect : result Z) (s : State)
  : State * result unit :=
  if negb (is_connected s) then
    (logger INFO [Lit "Not connected to MQTT broker"] s, Ok tt)
  else
    try_except
      (let s := logger INFO [Lit "Disconnecting from MQTT broker"] s in
       let s := call client_disconnect s in
       match transport_disconnect with
       | Raise e => (s, Raise e)
       | Ok _ =>
         let s := call client_loop_stop s in
         let s := set_is_connected false s in
         (logger INFO [Lit "Disconnected from MQTT broker"] s, Ok tt)
       end)
      (fun e s =>
         let s := logger ERROR (Lit "Error during disconnect: " :: exn_str e) s in
         (set_is_connected false s, Ok tt)).

Definition not_connected : exn :=
  RuntimeError_ [Lit "Not connected to MQTT broker. Call connect() first."] None.

(** [publish(message)]; [transport_publish] is the [rc] of what
    [self._client.publish(...)] returns, or what it raises. *)
Definition publish (message : str) (transport_publish : result Z) (s : State)
  : State * result unit :=
  if not_ message then (s, Raise (ValueError_ "Message cannot be empty"))
  else if negb (is_connected s) then (s, Raise not_connected)
  else
    try_except
      (let s := call (client_publish (_topic (self s)) message 0) s in
       match transport_publish with
       | Raise e => (s, Raise e)
       | Ok rc =>
         if negb (rc =? MQTT_ERR_SUCCESS) then
           (s, Raise (RuntimeError_ [Lit "Failed to publish message: ";
                                     ErrorString rc] None))
         else
           (logger INFO [Lit "Published message: "; Quote; FStr message; Quote;
                         Lit " to topic: "; FStr (_topic (self s))] s, Ok tt)
       end)
      (fun e s =>
         if isinstance e RuntimeError then (s, Raise e)
         else (s, Raise (RuntimeError_
                           (Lit "Failed to publish message: " :: exn_str e)
                           (Some e)))).

(** [subscribe()]; [transport_subscribe] is the pair [(result, mid)] that
    [self._client.subscribe(...)] returns, or what it raises. *)
Definition subscribe (transport_subscribe : result (Z * Z)) (s : State)
  : State * result unit :=
  if negb (is_connected s) then (s, Raise not_connected)
  else
    try_except
      (let s := call (client_subscribe (_topic (self s)) 0) s in
       match transport_subscribe with
       | Raise e => (s, Raise e)
       | Ok (result, _) =>
         if negb (result =? MQTT_ERR_SUCCESS) then
           (s, Raise (RuntimeError_ [Lit "Failed to subscribe to topic: ";
                                     ErrorString result] None))
         else
           (logger INFO [Lit "Subscribed to topic: ";
                         FStr (_topic (self s))] s, Ok tt)
       end)
      (fun e s =>
         if isinstance e RuntimeError then (s, Raise e)
         else (s, Raise (RuntimeError_
                           (Lit "Failed to subscribe to topic: " :: exn_str e)
                           (Some e)))).

Definition on_message_received (callback : MessageCallback) (s : State)
  : State * result unit :=
  (set_message_callback callback s, Ok tt).

(** The properties. *)
Definition topic (s : State) : str := _topic (self s).

Definition broker_info (s : State) : str * Z :=
  (_broker_host (self s), _broker_port (self s)).

Definition client_id (s : State) : str := _client_id (self s).

(** The context manager: [__enter__] connects with the default timeout of
    5.0 seconds, [__exit__] disconnects. *)
Definition __enter__ (fuel : nat) (env : connect_env) (s : State)
  : option (State * result unit) :=
  connect fuel 5 env s.

Definition __exit__ (transport_disconnect : result Z) (s : State)
  : State * result unit :=
  disconnect transport_disconnect s.

(** [__del__]: a constructed object has its [_client] attribute, so
    [hasattr(self, '_client')] holds. *)
Definition __del__ (transport_disconnect : result Z) (s : State)
  : State * result unit :=
  try_except
    (if true && is_connected s then disconnect transport_disconnect s
     else (s, Ok tt))
    (fun _ s => (s, Ok tt)).

(* ================================================================== *)
(** ** Runs of a client

    The caller invokes methods, and between two method calls the network
    loop may handle events.  A method that raises leaves the state as it
    was at the [raise]; the run goes on. *)

Inductive action : Type :=
| do_connect (timeout : Q) (env : connect_env)
| do_disconnect (transport_disconnect : result Z)
| do_publish (message : str) (transport_publish : result Z)
| do_subscribe (transport_subscribe : result (Z * Z))
| do_on_message_received (callback : MessageCallback)
| engine_event (ev : event).

Definition step (fuel : nat) (a : action) (s : State)
  : option (State * result unit) :=
  match a with
  | do_connect timeout env => connect fuel timeout env s
  | do_disconnect t => Some (disconnect t s)
  | do_publish message t => Some (publish message t s)
  | do_subscribe t => Some (subscribe t s)
  | do_on_message_received callback => Some (on_message_received callback s)
  | engine_event ev => Some (dispatch ev s)
  end.

Fixpoint run (fuel : nat) (tr : list action) (s : State) : option State :=
  match tr with
  | [] => Some s
  | a :: tr' =>
    match step fuel a s with
    | Some (s', _) => run fuel tr' s'
    | None => None
    end
  end.


(** The iterations the wait loop needs at most for a timeout: the least
    [n] with [timeout <= n * 0.1]. *)
Definition poll_bound (timeout : Q) : nat :=
  Z.to_nat (Qceiling (timeout * 10)).

Fixpoint fuel_for (tr : list action) : nat :=
  match tr with
  | [] => O
  | do_connect timeout _ :: tr' => Nat.max (poll_bound timeout) (fuel_for tr')
  | _ :: tr' => fuel_for tr'
  end.

(** The state of a client that has just been constructed in world [w]. *)
Definition constructed (broker_host : str) (broker_port : Z) (topic : str)
    (client_id : option str) (uuid4_hex : str) (w : World) : result State :=
  match __init__ broker_host broker_port topic client_id uuid4_hex w with
  | (w', Ok c) => Ok {| self := c; world := w' |}
  | (_, Raise e) => Raise e
  end.

(** A world in which nothing has happened yet. *)
Definition quiet : World := {| io := []; logged := []; clock := 0 |}.

(* ------------------------------------------------------------------ *)
(** *** The connection window, as the specification words it

    [connected] is true only between a successful connect-acknowledgment
    and a disconnect or unexpected network failure.  Read over the exchange
    with the engine, most recent first: the latest of the events that bear
    on the connection decides, and it opens the window only if it is an
    acknowledgment with code 0. *)



(* ------------------------------------------------------------------ *)
(** *** Names for the paths through [connect] *)

(** The three errors [connect] raises. *)
Definition initiation_error (rc : Z) : exn :=
  ConnectionError_ [Lit "Failed to initiate connection: "; ErrorString rc] None.

Definition timeout_error (timeout : Q) : exn :=
  ConnectionError_ [Lit "Connection timeout after "; FSeconds timeout;
                    Lit " seconds"] None.

Definition wrapped_error (e : exn) : exn :=
  ConnectionError_ (Lit "Failed to connect to MQTT broker: " :: exn_str e)
                   (Some e).

(** The state in which the transport-level connect call has been issued. *)
Definition connecting (s : State) : State :=
  call (client_connect (_broker_host (self s)) (_broker_port (self s)) 60)
       (logger INFO [Lit "Connecting to MQTT broker at ";
                     FStr (_broker_host (self s)); Lit ":";
                     FInt (_broker_port (self s))] s).


(** Case analysis on the first [match] in sight. *)
Ltac split_match :=
  match goal with
  | |- context [match ?x with _ => _ end] => destruct x eqn:?
  | H : context [match ?x with _ => _ end] |- _ => destruct x eqn:?
  end.

(* ================================================================== *)
(** ** Sample runs *)

Module Samples.

Definition localhost : str := text "localhost".
Definition test_topic : str := text "test/topic".
Definition hex : str := text "0123456789abcdef0123456789abcdef".

Definition fresh : State :=
  match constructed localhost 1883 test_topic None hex quiet with
  | Ok s => s
  | Raise _ => {| self := {| _broker_host := []; _broker_port := 0;
                             _topic := []; _client_id := [];
                             _is_connected := false;
                             _message_callback := None |};
                  world := quiet |}
  end.

(** The broker acknowledges during the second sleep. *)
Definition acked : connect_env :=
  {| transport_connect := Ok 0; deliveries := [[]; [on_connect 0]] |}.

(** The broker never answers. *)
Definition silent : connect_env :=
  {| transport_connect := Ok 0; deliveries := [] |}.

(** The broker refuses the credentials. *)
Definition refused : connect_env :=
  {| transport_connect := Ok 0; deliveries := [[on_connect 5]] |}.

Definition unreachable : connect_env :=
  {| transport_connect :=
       Raise (mk_exn OSError [Lit "Network is unreachable"] None);
     deliveries := [] |}.

Definition hello : MQTTMessage :=
  {| msg_topic := test_topic; msg_payload := [104; 101; 108; 108; 111]%N |}.

Definition garbled : MQTTMessage :=
  {| msg_topic := test_topic; msg_payload := [255]%N |}.


Definition connected_state : State :=
  match connect 2 5 acked fresh with
  | Some (s, _) => s
  | None => fresh
  end.



Definition socket_closed : exn :=
  mk_exn OSError [Lit "Bad file descriptor"] None.

End Samples.

(* ================================================================== *)
(** ** Observations on a client and its engine *)

(** What a client is constructed with: host, port, topic and identifier. *)
Definition identity (s : State) : str * Z * str * str :=
  (_broker_host (self s), _broker_port (self s), _topic (self s),
   _client_id (self s)).

(** The calls to the engine among an exchange, most recent first. *)
Fixpoint calls_of (l : list io_event) : list engine_call :=
  match l with
  | [] => []
  | Call c :: l' => c :: calls_of l'
  | Handler _ :: l' => calls_of l'
  end.

(** The calls a client with the given identity is seen to issue: protocol
    3.1.1, keepalive 60, its one topic, QoS 0, no empty payload. *)
Definition wire_conformant (host : str) (port : Z) (tp : str) (cid : str)
    (c : engine_call) : Prop :=
  match c with
  | mqtt_Client client_id protocol => client_id = cid /\ protocol = MQTTv311
  | client_connect h p keepalive => h = host /\ p = port /\ keepalive = 60
  | client_publish t payload qos => t = tp /\ payload <> [] /\ qos = 0
  | client_subscribe t qos => t = tp /\ qos = 0
  | client_loop_start | client_loop_stop | client_disconnect => True
  end.

(** The identifier [__init__] generates when the caller gives none. *)
Definition generated_client_id (uuid4_hex : str) : str :=
  text "direct-method-client-" ++ slice_to 8 uuid4_hex.

Module Scenes.

(** A client constructed with an identifier of its own. *)
Definition named : State :=
  match constructed Samples.localhost 1883 Samples.test_topic
                    (Some (text "sensor-1")) Samples.hex quiet with
  | Ok s => s
  | Raise _ => Samples.fresh
  end.

(** Connect, use the topic, lose the connection, connect again, leave. *)
Definition day : list action :=
  [do_connect 5 Samples.acked;
   do_subscribe (Ok (0, 1));
   do_publish (text "on") (Ok 0);
   engine_event (on_publish 1);
   engine_event (on_disconnect 7);
   do_publish (text "off") (Ok 0);
   do_connect 5 Samples.acked;
   do_publish (text "off") (Ok 4);
   do_disconnect (Ok 0)].

(** An engine that raises ValueError for a payload it refuses. *)
Definition payload_refused : exn :=
  mk_exn ValueError [Lit "Payload too large"] None.

(** An application error derived from RuntimeError. *)
Definition engine_stopped : exn :=
  mk_exn (Derived "EngineStopped" RuntimeError) [Lit "engine stopped"] None.



End Scenes.

(* ================================================================== *)
(** ** The release-notes tool

    Embedding of the parts of [tools/release-notes.py] that compute on
    commits: reading [git log --oneline], sorting commits into categories
    and formatting a commit for the notes.  The shell is an environment:
    what [subprocess.run] returns or raises for a command is an input.
    What [print] writes is returned beside the result. *)

Module release_notes.

(** [s.split(sep)] for a separator of one character. *)
Fixpoint split (sep : N) (s : str) : list str :=
  match s with
  | [] => [[]]
  | c :: r =>
    if (c =? sep)%N then [] :: split sep r
    else match split sep r with
         | part :: parts => (c :: part) :: parts
         | [] => [[c]]
         end
  end.

(** [s.split(sep, 1)] for a separator of one character. *)
Fixpoint split_once (sep : N) (s : str) : list str :=
  match s with
  | [] => [[]]
  | c :: r =>
    if (c =? sep)%N then [[]; r]
    else match split_once sep r with
         | part :: parts => (c :: part) :: parts
         | [] => [[c]]
         end
  end.

(** [sep.join(parts)] *)
Fixpoint join (sep : str) (parts : list str) : str :=
  match parts with
  | [] => []
  | [part] => part
  | part :: parts' => part ++ sep ++ join sep parts'
  end.

Definition newline : N := 10%N.
Definition space : N := 32%N.

(** [subprocess.CalledProcessError] *)
Definition CalledProcessError : pyclass :=
  Derived "CalledProcessError" (Derived "SubprocessError" Exception).

(** [run_command(cmd)]: the stripped standard output, or [None] after a
    printed message when the command fails. *)
Definition run_command (shell : str -> result str) (cmd : str)
  : list fstring * result (option str) :=
  match shell cmd with
  | Ok stdout => ([], Ok (Some (strip stdout)))
  | Raise e =>
    if isinstance e CalledProcessError then
      ([Lit "Error running command '" :: FStr cmd :: Lit "': " :: exn_str e],
       Ok None)
    else ([], Raise e)
  end.

(** A commit, [{'hash': ..., 'message': ...}]. *)
Record commit : Type := { hash : str; message : str }.

(** The command [get_git_commits_since_tag] runs. *)
Definition git_log_command (tag : option str) : str :=
  match tag with
  | Some t =>
    if not_ t then text "git log --oneline --no-merges"
    else text "git log " ++ t ++ text "..HEAD --oneline --no-merges"
  | None => text "git log --oneline --no-merges"
  end.

(** The body of the loop over the lines of the log. *)
Definition add_line (commits : list commit) (line : str) : list commit :=
  if negb (not_ (strip line)) then
    match split_once space line with
    | [h; m] => commits ++ [{| hash := h; message := m |}]
    | _ => commits
    end
  else commits.

Definition get_git_commits_since_tag (shell : str -> result str)
    (tag : option str) : list fstring * result (list commit) :=
  match run_command shell (git_log_command tag) with
  | (printed, Raise e) => (printed, Raise e)
  | (printed, Ok None) => (printed, Ok [])
  | (printed, Ok (Some output)) =>
    if not_ output then (printed, Ok [])
    else (printed, Ok (fold_left add_line (split newline output) []))
  end.

Definition get_latest_tag (shell : str -> result str)
  : list fstring * result (option str) :=
  run_command shell (text "git describe --tags --abbrev=0").

(* ------------------------------------------------------------------ *)
(** *** The conventional-commit patterns *)

(** [re.IGNORECASE] on a lower-case ASCII letter [p] of a pattern: the
    characters it matches are the letter, its capital, and the characters
    Python's case-insensitive matching adds for [i], [s] and [k]. *)
Definition matches_letter (p c : N) : bool :=
  ((c =? p) || (c =? p - 32)
   || ((p =? 105) && ((c =? 304) || (c =? 305)))
   || ((p =? 115) && (c =? 383))
   || ((p =? 107) && (c =? 8490)))%N.

(** The keyword at the start of the subject, any case; what follows it. *)
Fixpoint after_keyword (keyword subject : str) : option str :=
  match keyword, subject with
  | [], _ => Some subject
  | _ :: _, [] => None
  | p :: keyword', c :: subject' =>
    if matches_letter p c then after_keyword keyword' subject' else None
  end.

(** [: ] at the start of the subject; what follows it. *)
Definition after_colon_space (subject : str) : option str :=
  match subject with
  | 58%N :: 32%N :: rest => Some rest
  | _ => None
  end.

(** The rest of [.+\): ] once the opening bracket has been read.  [.] is
    any character but a newline and [+] is greedy, so the closing bracket
    taken is the last one, before any newline, that [: ] follows;
    [nonempty] tells whether [.+] has read a character yet. *)
Fixpoint after_scope (nonempty : bool) (subject : str) : option str :=
  match subject with
  | [] => None
  | c :: rest =>
    match (if (c =? 10)%N then None else after_scope true rest) with
    | Some r => Some r
    | None =>
      if nonempty && (c =? 41)%N then after_colon_space rest else None
    end
  end.

(** [(\(.+\))?: ] at the start of the subject; what follows the match. *)
Definition after_scope_colon (subject : str) : option str :=
  match subject with
  | 40%N :: rest =>
    match after_scope false rest with
    | Some r => Some r
    | None => after_colon_space subject
    end
  | _ => after_colon_space subject
  end.

(** [^keyword(\(.+\))?: ] with [re.IGNORECASE], matched at the start of a
    message: [None] when there is no match, else what follows the match. *)
Definition conventional_prefix (keyword message : str) : option str :=
  match after_keyword keyword message with
  | Some rest => after_scope_colon rest
  | None => None
  end.

(** The keys of the dictionary [categories]. *)
Inductive category : Type :=
| features | fixes | docs | performance | refactor | tests | ci | build
| other.

Definition category_eq_dec (a b : category) : {a = b} + {a <> b}.
Proof. decide equality. Defined.

(** The dictionary [patterns], in the order of its insertion: a category
    and the keyword of its pattern. *)
Definition patterns : list (category * str) :=
  [(features, text "feat"); (fixes, text "fix"); (docs, text "docs");
   (performance, text "perf"); (refactor, text "refactor");
   (tests, text "test"); (ci, text "ci"); (build, text "build")].

(** The dictionary [categories]: a list of commits under every key. *)
Definition categories : Type := category -> list commit.

Definition no_commits : categories := fun _ => [].

(** [categories[key].append(commit)] *)
Definition append_to (key : category) (c : commit) (cats : categories)
  : categories :=
  fun k => if category_eq_dec k key then cats k ++ [c] else cats k.

(** The inner loop of [categorize_commits]: the first category whose
    pattern matches, if any. *)
Fixpoint first_match (ps : list (category * str)) (msg : str)
  : option category :=
  match ps with
  | [] => None
  | (key, keyword) :: ps' =>
    match conventional_prefix keyword msg with
    | Some _ => Some key
    | None => first_match ps' msg
    end
  end.

Definition categorize (cats : categories) (c : commit) : categories :=
  match first_match patterns (message c) with
  | Some key => append_to key c cats
  | None => append_to other c cats
  end.

Definition categorize_commits (commits : list commit) : categories :=
  fold_left categorize commits no_commits.

(** The alternation [(feat|fix|docs|perf|refactor|test|ci|build)] of
    [format_commit_message], in its order. *)
Definition keywords : list str :=
  [text "feat"; text "fix"; text "docs"; text "perf"; text "refactor";
   text "test"; text "ci"; text "build"].

(** [re.sub] of the anchored pattern by the empty string: the message
    without its conventional prefix, or the message itself. *)
Fixpoint without_prefix (kws : list str) (msg : str) : str :=
  match kws with
  | [] => msg
  | keyword :: kws' =>
    match conventional_prefix keyword msg with
    | Some rest => rest
    | None => without_prefix kws' msg
    end
  end.

(** [format_commit_message(commit)].  [upper] is [str.upper] on one
    character, which may give several. *)
Definition format_commit_message (upper : N -> str) (c : commit) : str :=
  let clean_message := without_prefix keywords (message c) in
  let clean_message :=
    match clean_message with
    | [] => []
    | first :: rest => upper first ++ rest
    end in
  text "- " ++ clean_message ++ text " (" ++ hash c ++ text ")".

(** The log [git log --oneline] prints for the commits, newest first. *)
Definition oneline_log (commits : list commit) : str :=
  join [newline] (map (fun c => hash c ++ space :: message c) commits).

(** The category a message falls in. *)
Definition category_of (msg : str) : category :=
  match first_match patterns msg with
  | Some key => key
  | None => other
  end.

(** [str.upper] on the ASCII characters, for the sample runs. *)
Definition ascii_upper (c : N) : str :=
  if ((97 <=? c) && (c <=? 122))%N then [(c - 32)%N] else [c].

Definition sample_log : list commit :=
  [{| hash := text "a1b2c3d"; message := text "feat(client): add reconnect" |};
   {| hash := text "e4f5a6b"; message := text "Fix: handle empty payload" |};
   {| hash := text "0c1d2e3"; message := text "bump version" |}].

End release_notes.


Example fresh_client_id :
  client_id Samples.fresh = text "direct-method-client-01234567".
Proof. reflexivity. Qed.

Example fresh_not_connected : is_connected Samples.fresh = false.
Proof. reflexivity. Qed.

Example connect_acked :
  option_map (fun p => (is_connected (fst p), is_ok (snd p)))
             (connect 2 5 Samples.acked Samples.fresh) = Some (true, true).
Proof. reflexivity. Qed.

Example connect_acked_io :
  io (world Samples.connected_state) =
  [Handler (on_connect 0); Call client_loop_start;
   Call (client_connect Samples.localhost 1883 60);
   Call (mqtt_Client (text "direct-method-client-01234567") 4)].
Proof. reflexivity. Qed.

Example connect_silent_needs_fuel :
  connect 49 5 Samples.silent Samples.fresh = None.
Proof. vm_compute. reflexivity. Qed.

Example connect_silent_times_out :
  option_map (fun p => (is_connected (fst p), option_map exn_class
                          (match snd p with Raise e => Some e | Ok _ => None end)))
             (connect 50 5 Samples.silent Samples.fresh)
  = Some (false, Some ConnectionError).
Proof. vm_compute. reflexivity. Qed.

Example connect_unreachable_wraps :
  option_map snd (connect 0 5 Samples.unreachable Samples.fresh)
  = Some (Raise (mk_exn ConnectionError
                   [Lit "Failed to connect to MQTT broker: ";
                    Lit "Network is unreachable"]
                   (Some (mk_exn OSError [Lit "Network is unreachable"] None)))).
Proof. reflexivity. Qed.

Example decode_hello :
  decode_utf8 (msg_payload Samples.hello) = Ok (text "hello").
Proof. reflexivity. Qed.

Example decode_euro : decode_utf8 [226; 130; 172]%N = Ok [8364%N].
Proof. reflexivity. Qed.

Example decode_garbled : is_ok (decode_utf8 (msg_payload Samples.garbled)) = false.
Proof. reflexivity. Qed.

Example strip_padded : strip (text "  a b ") = text "a b".
Proof. reflexivity. Qed.

Example poll_bound_default : poll_bound 5 = 50%nat.
Proof. reflexivity. Qed.

(* ================================================================== *)
(** ** Basic facts *)

Lemma lstrip_nil_iff (s : str) : lstrip s = [] <-> forallb isspace s = true.
Proof.
  induction s as [|c s IH]; simpl.
  - tauto.
  - destruct (isspace c); simpl.
    + exact IH.
    + split; discriminate.
Qed.

Lemma lstrip_head (s : str) :
  lstrip s = [] \/ exists c r, lstrip s = c :: r /\ isspace c = false.
Proof.
  induction s as [|c s IH]; simpl.
  - now left.
  - destruct (isspace c) eqn:E.
    + exact IH.
    + right. now exists c, s.
Qed.

Lemma forallb_rev {A} (f : A -> bool) (l : list A) :
  forallb f (rev l) = forallb f l.
Proof.
  induction l as [|a l IH]; simpl.
  - reflexivity.
  - rewrite forallb_app, IH. simpl. rewrite andb_true_r. apply andb_comm.
Qed.

(** [not s.strip()] holds exactly of the strings made of whitespace. *)
Lemma not_strip_iff (s : str) :
  not_ (strip s) = true <-> forallb isspace s = true.
Proof.
  unfold strip, rstrip.
  split.
  - intros H.
    assert (E : lstrip (rev (lstrip s)) = []).
    { destruct (lstrip (rev (lstrip s))) as [|x l] eqn:E; [reflexivity|].
      simpl in H. destruct (rev l ++ [x]) eqn:E'; [|discriminate].
      now destruct (rev l). }
    apply lstrip_nil_iff in E. rewrite forallb_rev in E.
    destruct (lstrip_head s) as [H0 | (c & r & H0 & Hc)].
    + now apply lstrip_nil_iff.
    + rewrite H0 in E. simpl in E. rewrite Hc in E. discriminate.
  - intros H. apply lstrip_nil_iff in H. rewrite H. reflexivity.
Qed.

Lemma not_strip_false_iff (s : str) :
  not_ (strip s) = false <-> strip s <> [].
Proof.
  destruct (strip s); simpl; split; congruence.
Qed.

Lemma issubclass_refl (c : pyclass) : issubclass c c = true.
Proof. unfold issubclass. now destruct (pyclass_eq_dec c c). Qed.

Lemma Qltb_lt (a b : Q) : Qltb a b = true <-> (a < b)%Q.
Proof.
  unfold Qltb. rewrite negb_true_iff.
  destruct (Qle_bool b a) eqn:E.
  - apply Qle_bool_iff in E. split; [discriminate|].
    intros H. exfalso. exact (Qlt_not_le _ _ H E).
  - split; [intros _|reflexivity].
    apply Qnot_le_lt. intros H. apply Qle_bool_iff in H. congruence.
Qed.

Lemma Qltb_ge (a b : Q) : Qltb a b = false <-> (b <= a)%Q.
Proof.
  unfold Qltb. rewrite negb_false_iff. apply Qle_bool_iff.
Qed.

(* ------------------------------------------------------------------ *)
(** *** Handlers hand nothing back to the network loop *)

Lemma _on_message_ok (msg : MQTTMessage) (s : State) :
  snd (_on_message msg s) = Ok tt.
Proof.
  unfold _on_message, try_except.
  destruct (decode_utf8 (msg_payload msg)) as [message|e]; simpl; [|reflexivity].
  destruct (_message_callback (self s)) as [callback|]; simpl; [|reflexivity].
  destruct (callback (msg_topic msg) message); reflexivity.
Qed.

Lemma dispatch_ok (ev : event) (s : State) : snd (dispatch ev s) = Ok tt.
Proof.
  destruct ev; simpl; try reflexivity. apply _on_message_ok.
Qed.


Lemma deliver_cons (ev : event) (evs : list event) (s : State) :
  fst (deliver (ev :: evs) s) = fst (deliver evs (fst (dispatch ev s))).
Proof.
  simpl. pose proof (dispatch_ok ev s) as H.
  destruct (dispatch ev s) as [s' r]. simpl in *. now subst r.
Qed.

(* ------------------------------------------------------------------ *)
(** *** The flag agrees with the connection window *)


Lemma _on_message_frame (msg : MQTTMessage) (s : State) :
  self (fst (_on_message msg s)) = self s /\
  io (world (fst (_on_message msg s))) = io (world s) /\
  clock (world (fst (_on_message msg s))) = clock (world s).
Proof.
  unfold _on_message, try_except.
  destruct (decode_utf8 (msg_payload msg)) as [message|e]; simpl; [|tauto].
  destruct (_message_callback (self s)) as [callback|]; simpl; [|tauto].
  destruct (callback (msg_topic msg) message); simpl; tauto.
Qed.

Lemma dispatch_clock (ev : event) (s : State) :
  clock (world (fst (dispatch ev s))) = clock (world s).
Proof.
  destruct ev; simpl;
    try (unfold _on_connect, _on_disconnect, _on_log;
         repeat split_match; reflexivity).
  now destruct (_on_message_frame msg (handled (on_message msg) s)) as (_ & _ & ->).
Qed.

Lemma dispatch_io (ev : event) (s : State) :
  io (world (fst (dispatch ev s))) = Handler ev :: io (world s).
Proof.
  destruct ev; simpl;
    try (unfold _on_connect, _on_disconnect, _on_log;
         repeat split_match; reflexivity).
  now destruct (_on_message_frame msg (handled (on_message msg) s)) as (_ & -> & _).
Qed.

(** What a handler does to the flag. *)
Lemma dispatch_is_connected (ev : event) (s : State) :
  is_connected (fst (dispatch ev s)) =
  match ev with
  | on_connect rc => rc =? 0
  | on_disconnect _ => false
  | _ => is_connected s
  end.
Proof.
  destruct ev; simpl; unfold is_connected;
    try (unfold _on_connect, _on_disconnect, _on_log;
         repeat split_match; simpl; congruence).
  now destruct (_on_message_frame msg (handled (on_message msg) s)) as (-> & _ & _).
Qed.


Lemma deliver_clock (evs : list event) (s : State) :
  clock (world (fst (deliver evs s))) = clock (world s).
Proof.
  revert s. induction evs as [|ev evs IH]; intros s.
  - reflexivity.
  - rewrite deliver_cons, IH. apply dispatch_clock.
Qed.

Lemma deliver_io (evs : list event) (s : State) :
  io (world (fst (deliver evs s))) = rev (map Handler evs) ++ io (world s).
Proof.
  revert s. induction evs as [|ev evs IH]; intros s.
  - reflexivity.
  - rewrite deliver_cons, IH, dispatch_io. simpl.
    now rewrite <- app_assoc.
Qed.


(** Only an acknowledgment with code 0 raises the flag. *)
Lemma dispatch_raises_flag (ev : event) (s : State) :
  is_connected s = false -> is_connected (fst (dispatch ev s)) = true ->
  ev = on_connect 0.
Proof.
  rewrite dispatch_is_connected. intros H0 H1.
  destruct ev; try congruence.
  apply Z.eqb_eq in H1. now subst.
Qed.

Lemma deliver_raises_flag (evs : list event) (s : State) :
  is_connected s = false -> is_connected (fst (deliver evs s)) = true ->
  In (on_connect 0) evs.
Proof.
  revert s. induction evs as [|ev evs IH]; intros s H0 H1.
  - simpl in H1. congruence.
  - rewrite deliver_cons in H1.
    destruct (is_connected (fst (dispatch ev s))) eqn:E.
    + left. exact (dispatch_raises_flag ev s H0 E).
    + right. now apply (IH _ E).
Qed.

(** The wait loop: what holds of every state it passes through holds of the
    state it ends in. *)
Lemma wait_connected_invariant (P : State -> Prop) :
  (forall evs s, P s -> P (sleep poll_interval (fst (deliver evs s)))) ->
  forall fuel dl start timeout s s',
    P s -> wait_connected fuel dl start timeout s = Some s' -> P s'.
Proof.
  intros Hstep. induction fuel as [|fuel IH]; intros dl start timeout s s' HP; simpl.
  - destruct (negb (is_connected s) && Qltb (clock (world s) - start) timeout);
      [discriminate|]. now intros [= <-].
  - destruct (negb (is_connected s) && Qltb (clock (world s) - start) timeout).
    + apply IH. now apply Hstep.
    + now intros [= <-].
Qed.


Lemma wait_connected_exit fuel dl start timeout s s' :
  wait_connected fuel dl start timeout s = Some s' ->
  is_connected s' = true \/ (clock (world s') - start >= timeout)%Q.
Proof.
  revert dl s. induction fuel as [|fuel IH]; intros dl s; simpl.
  - destruct (is_connected s) eqn:E; simpl.
    + intros [= <-]. now left.
    + destruct (Qltb (clock (world s) - start) timeout) eqn:E'; [discriminate|].
      intros [= <-]. right. now apply Qltb_ge.
  - destruct (is_connected s) eqn:E; simpl.
    + intros [= <-]. now left.
    + destruct (Qltb (clock (world s) - start) timeout) eqn:E'.
      * apply IH.
      * intros [= <-]. right. now apply Qltb_ge.
Qed.

Lemma wait_connected_raises_flag fuel dl start timeout s s' :
  is_connected s = false ->
  wait_connected fuel dl start timeout s = Some s' ->
  is_connected s' = true -> In (on_connect 0) (List.concat dl).
Proof.
  revert dl s. induction fuel as [|fuel IH]; intros dl s H0; simpl.
  - destruct (negb (is_connected s) && Qltb (clock (world s) - start) timeout);
      [discriminate|]. intros [= <-]. congruence.
  - destruct (negb (is_connected s) && Qltb (clock (world s) - start) timeout).
    + destruct (is_connected (fst (deliver (hd [] dl) s))) eqn:E.
      * intros _ _. apply (deliver_raises_flag _ s H0) in E.
        destruct dl as [|evs dl]; simpl in *; [contradiction|].
        apply in_or_app. now left.
      * intros Hw H1.
        specialize (IH (tl dl) (sleep poll_interval (fst (deliver (hd [] dl) s)))
                       E Hw H1).
        destruct dl as [|evs dl]; simpl in *; [contradiction|].
        apply in_or_app. now right.
    + intros [= <-]. congruence.
Qed.

(* ------------------------------------------------------------------ *)
(** *** The paths through [connect] *)

Lemma connect_already fuel timeout env s :
  is_connected s = true ->
  connect fuel timeout env s =
  Some (logger INFO [Lit "Already connected to MQTT broker"] s, Ok tt).
Proof. unfold connect. now intros ->. Qed.

Lemma connect_transport_raises fuel timeout env s e :
  is_connected s = false -> transport_connect env = Raise e ->
  connect fuel timeout env s =
  Some (call client_loop_stop (connecting s),
        Raise (if isinstance e ConnectionError then e else wrapped_error e)).
Proof.
  intros H0 Ht. unfold connect, connect_try. rewrite H0, Ht. simpl.
  now destruct (isinstance e ConnectionError).
Qed.

Lemma connect_transport_refuses fuel timeout env s rc :
  is_connected s = false -> transport_connect env = Ok rc -> rc <> 0 ->
  connect fuel timeout env s =
  Some (call client_loop_stop (connecting s), Raise (initiation_error rc)).
Proof.
  intros H0 Ht Hrc. unfold connect, connect_try. rewrite H0, Ht.
  unfold MQTT_ERR_SUCCESS.
  destruct (rc =? 0) eqn:E; [apply Z.eqb_eq in E; contradiction|].
  reflexivity.
Qed.

Lemma connect_waits fuel timeout env s :
  is_connected s = false -> transport_connect env = Ok 0 ->
  connect fuel timeout env s =
  match wait_connected fuel (deliveries env) (clock (world s)) timeout
                       (call client_loop_start (connecting s)) with
  | None => None
  | Some s2 =>
    if is_connected s2 then Some (s2, Ok tt)
    else Some (call client_loop_stop (call client_loop_stop s2),
               Raise (timeout_error timeout))
  end.
Proof.
  intros H0 Ht. unfold connect, connect_try. rewrite H0, Ht. simpl.
  fold (connecting s).
  destruct (wait_connected fuel (deliveries env) (clock (world s)) timeout
                           (call client_loop_start (connecting s))) as [s2|];
    [|reflexivity].
  destruct (is_connected s2); reflexivity.
Qed.

Lemma transport_cases (env : connect_env) :
  (exists e, transport_connect env = Raise e) \/
  (exists rc, transport_connect env = Ok rc /\ rc <> 0) \/
  transport_connect env = Ok 0.
Proof.
  destruct (transport_connect env) as [rc|e].
  - destruct (Z.eq_dec rc 0) as [->|H].
    + now right; right.
    + right; left. now exists rc.
  - left. now exists e.
Qed.








(* ------------------------------------------------------------------ *)
(** *** The wait loop ends *)

Lemma wait_connected_terminates fuel dl start timeout s :
  (timeout - (clock (world s) - start)
   <= inject_Z (Z.of_nat fuel) * poll_interval)%Q ->
  exists s', wait_connected fuel dl start timeout s = Some s'.
Proof.
  revert dl s. induction fuel as [|fuel IH]; intros dl s Hf.
  - simpl. destruct (negb (is_connected s)
                     && Qltb (clock (world s) - start) timeout) eqn:E.
    + apply andb_true_iff in E. destruct E as [_ E]. apply Qltb_lt in E.
      change (inject_Z (Z.of_nat 0)) with 0%Q in Hf.
      unfold poll_interval in Hf. exfalso. lra.
    + now exists s.
  - simpl. destruct (negb (is_connected s)
                     && Qltb (clock (world s) - start) timeout) eqn:E.
    + apply IH. simpl. rewrite deliver_clock.
      rewrite Nat2Z.inj_succ in Hf. unfold Z.succ in Hf.
      rewrite inject_Z_plus in Hf. change (inject_Z 1) with 1%Q in Hf.
      unfold poll_interval in *.
      generalize dependent (inject_Z (Z.of_nat fuel)). intros q _ Hf. lra.
    + now exists s.
Qed.

Lemma poll_bound_enough (fuel : nat) (timeout : Q) :
  (poll_bound timeout <= fuel)%nat ->
  (timeout <= inject_Z (Z.of_nat fuel) * poll_interval)%Q.
Proof.
  unfold poll_bound, poll_interval. intros H.
  pose proof (Qle_ceiling (timeout * 10)) as Hc.
  assert (Hz : (Qceiling (timeout * 10) <= Z.of_nat fuel)%Z) by lia.
  rewrite Zle_Qle in Hz.
  generalize dependent (inject_Z (Z.of_nat fuel)).
  generalize dependent (inject_Z (Qceiling (timeout * 10))).
  intros c Hc f Hz. lra.
Qed.


Lemma connect_terminates fuel timeout env s :
  (poll_bound timeout <= fuel)%nat ->
  exists s' r, connect fuel timeout env s = Some (s', r).
Proof.
  intros Hf. destruct (is_connected s) eqn:H0.
  - rewrite (connect_already _ _ _ _ H0). eauto.
  - destruct (transport_cases env) as [(e & Ht) | [(rc & Ht & Hrc) | Ht]].
    + rewrite (connect_transport_raises _ _ _ _ _ H0 Ht). eauto.
    + rewrite (connect_transport_refuses _ _ _ _ _ H0 Ht Hrc). eauto.
    + rewrite (connect_waits _ _ _ _ H0 Ht).
      destruct (wait_connected_terminates fuel (deliveries env)
                  (clock (world s)) timeout
                  (call client_loop_start (connecting s))) as [s2 ->].
      * apply poll_bound_enough in Hf. simpl. lra.
      * destruct (is_connected s2); eauto.
Qed.

Lemma poll_bound_fuel_for_head timeout env tr :
  (poll_bound timeout <= fuel_for (do_connect timeout env :: tr))%nat.
Proof. simpl. apply Nat.le_max_l. Qed.

Lemma fuel_for_tail a tr : (fuel_for tr <= fuel_for (a :: tr))%nat.
Proof. destruct a; simpl; auto using Nat.le_max_r. Qed.

(** Every run ends, given the fuel its timeouts ask for. *)
Lemma run_terminates fuel tr s :
  (fuel_for tr <= fuel)%nat -> exists s', run fuel tr s = Some s'.
Proof.
  revert s. induction tr as [|a tr IH]; intros s Hf.
  - now exists s.
  - assert (Ht : (fuel_for tr <= fuel)%nat)
      by (pose proof (fuel_for_tail a tr); lia).
    assert (Hs : exists s1 r, step fuel a s = Some (s1, r)).
    { destruct a; simpl; try (eexists; eexists; apply f_equal, surjective_pairing).
      apply connect_terminates.
      pose proof (poll_bound_fuel_for_head timeout env tr). lia. }
    destruct Hs as (s1 & r & Hs). simpl. rewrite Hs. now apply IH.
Qed.

Lemma connect_raises_flag fuel timeout env s s' r :
  connect fuel timeout env s = Some (s', r) ->
  is_connected s = false -> is_connected s' = true ->
  In (on_connect 0) (List.concat (deliveries env)).
Proof.
  intros Hc H0 H1.
  destruct (transport_cases env) as [(e & Ht) | [(rc & Ht & Hrc) | Ht]].
  - rewrite (connect_transport_raises _ _ _ _ _ H0 Ht) in Hc.
    injection Hc as <- _. unfold is_connected in *. simpl in H1. congruence.
  - rewrite (connect_transport_refuses _ _ _ _ _ H0 Ht Hrc) in Hc.
    injection Hc as <- _. unfold is_connected in *. simpl in H1. congruence.
  - rewrite (connect_waits _ _ _ _ H0 Ht) in Hc.
    destruct (wait_connected fuel (deliveries env) (clock (world s)) timeout
                             (call client_loop_start (connecting s)))
      as [s2|] eqn:Hw; [|discriminate].
    destruct (is_connected s2) eqn:H2.
    + injection Hc as <- _.
      exact (wait_connected_raises_flag
               _ _ _ _ (call client_loop_start (connecting s)) _ H0 Hw H2).
    + injection Hc as <- _. unfold is_connected in *. simpl in H1. congruence.
Qed.



(* ================================================================== *)
(** ** The connection life cycle *)




(** C2.  [connect] fails with a ConnectionError on every failure path.  For
    a client that is not connected and fuel enough for the timeout, the
    call ends, and: whenever it raises, what it raises is an instance of
    ConnectionError, the last call to the engine was [loop_stop] and the
    flag is false; if the transport-level connect returns a code other
    than success the error carries that code's description; if the
    transport-level connect succeeds and the wait ends with the flag still
    false, the timeout has elapsed, the loop is stopped and the error names
    the timeout; and an exception raised by the transport-level connect is
    raised again if it is a ConnectionError and is otherwise wrapped into
    one that has it as its cause. *)
Theorem connect_fails_with_ConnectionError
    (fuel : nat) (timeout : Q) (env : connect_env) (s : State) :
  is_connected s = false ->
  (poll_bound timeout <= fuel)%nat ->
  exists s' r,
    connect fuel timeout env s = Some (s', r) /\
    (forall e, r = Raise e ->
       isinstance e ConnectionError = true /\
       (exists past, io (world s') = Call client_loop_stop :: past) /\
       is_connected s' = false) /\
    (forall rc, transport_connect env = Ok rc -> rc <> MQTT_ERR_SUCCESS ->
       r = Raise (initiation_error rc) /\
       s' = call client_loop_stop (connecting s)) /\
    (transport_connect env = Ok MQTT_ERR_SUCCESS -> is_connected s' = false ->
       r = Raise (timeout_error timeout) /\
       (timeout <= clock (world s') - clock (world s))%Q /\
       exists past,
         io (world s') = Call client_loop_stop :: Call client_loop_stop :: past) /\
    (forall e0, transport_connect env = Raise e0 ->
       s' = call client_loop_stop (connecting s) /\
       (isinstance e0 ConnectionError = true -> r = Raise e0) /\
       (isinstance e0 ConnectionError = false ->
        r = Raise (wrapped_error e0) /\
        exn_class (wrapped_error e0) = ConnectionError /\
        exn_cause (wrapped_error e0) = Some e0)).
Proof.
  intros H0 Hf.
  destruct (transport_cases env) as [(e0 & Ht) | [(rc & Ht & Hrc) | Ht]].
  - exists (call client_loop_stop (connecting s)),
      (Raise (if isinstance e0 ConnectionError then e0 else wrapped_error e0)).
    split; [exact (connect_transport_raises _ _ _ _ _ H0 Ht)|].
    split; [|split; [|split]].
    + intros e He. injection He as <-. split; [|split].
      * destruct (isinstance e0 ConnectionError) eqn:E; [exact E|reflexivity].
      * eexists. reflexivity.
      * exact H0.
    + intros rc Ht'. congruence.
    + intros Ht'. congruence.
    + intros e1 Ht'. rewrite Ht in Ht'. injection Ht' as <-.
      split; [reflexivity|split].
      * now intros ->.
      * intros ->. repeat split.
  - exists (call client_loop_stop (connecting s)), (Raise (initiation_error rc)).
    split; [exact (connect_transport_refuses _ _ _ _ _ H0 Ht Hrc)|].
    split; [|split; [|split]].
    + intros e He. injection He as <-. split; [|split].
      * reflexivity.
      * eexists. reflexivity.
      * exact H0.
    + intros rc' Ht' _. rewrite Ht in Ht'. injection Ht' as <-. now split.
    + intros Ht'. rewrite Ht in Ht'. injection Ht' as ->.
      now contradiction Hrc.
    + intros e1 Ht'. congruence.
  - rewrite (connect_waits _ _ _ _ H0 Ht).
    destruct (wait_connected_terminates fuel (deliveries env)
                (clock (world s)) timeout
                (call client_loop_start (connecting s))) as [s2 Hw].
    { apply poll_bound_enough in Hf. simpl. lra. }
    rewrite Hw.
    pose proof (wait_connected_exit _ _ _ _ _ _ Hw) as Hexit.
    destruct (is_connected s2) eqn:H2.
    + exists s2, (Ok tt). split; [reflexivity|].
      split; [|split; [|split]].
      * intros e He. discriminate.
      * intros rc Ht' Hrc. rewrite Ht in Ht'. injection Ht' as <-.
        now contradiction Hrc.
      * intros _ H2'. congruence.
      * intros e1 Ht'. congruence.
    + exists (call client_loop_stop (call client_loop_stop s2)),
        (Raise (timeout_error timeout)).
      split; [reflexivity|].
      destruct Hexit as [Hexit|Hexit]; [congruence|].
      split; [|split; [|split]].
      * intros e He. injection He as <-. split; [|split].
        -- reflexivity.
        -- eexists. reflexivity.
        -- exact H2.
      * intros rc Ht' Hrc. rewrite Ht in Ht'. injection Ht' as <-.
        now contradiction Hrc.
      * intros _ _. split; [reflexivity|split].
        -- exact Hexit.
        -- eexists. reflexivity.
      * intros e1 Ht'. congruence.
Qed.





(* ================================================================== *)
(** ** Disconnecting *)

(** C4.  [disconnect] never fails observably.  Whatever the transport-level
    disconnect does, the call returns normally and the flag is false
    afterwards.  On a client that is not connected it only logs; on a
    connected client it issues the transport disconnect and then stops the
    loop; and when the transport disconnect raises, the exception is logged
    at error level and goes no further. *)
Theorem disconnect_never_fails (t : result Z) (s : State) :
  snd (disconnect t s) = Ok tt /\
  is_connected (fst (disconnect t s)) = false /\
  (is_connected s = false ->
   fst (disconnect t s) = logger INFO [Lit "Not connected to MQTT broker"] s) /\
  (forall rc, is_connected s = true -> t = Ok rc ->
     io (world (fst (disconnect t s)))
     = Call client_loop_stop :: Call client_disconnect :: io (world s)) /\
  (forall e, is_connected s = true -> t = Raise e ->
     io (world (fst (disconnect t s))) = Call client_disconnect :: io (world s) /\
     logged (world (fst (disconnect t s)))
     = (ERROR, Lit "Error during disconnect: " :: exn_str e)
         :: (INFO, [Lit "Disconnecting from MQTT broker"])
         :: logged (world s)).
Proof.
  unfold disconnect.
  destruct (is_connected s) eqn:H0; simpl.
  - destruct t as [rc|e]; simpl; repeat split; try congruence.
    match goal with H : Raise _ = Raise _ |- _ => injection H as <- end.
    reflexivity.
  - repeat split; try congruence. exact H0.
Qed.

(* ================================================================== *)
(** ** Publishing and subscribing *)

(** C5 as stated fails: [subscribe] on a client that is not connected and
    [subscribe] on a connected client whose engine returns the non-success
    code 1 raise errors of one and the same class, RuntimeError. *)
Lemma not_connected_and_engine_failure_share_class :
  snd (subscribe (Ok (1, 0)) Samples.fresh) = Raise not_connected /\
  snd (subscribe (Ok (1, 0)) Samples.connected_state)
  = Raise (RuntimeError_ [Lit "Failed to subscribe to topic: "; ErrorString 1]
                         None) /\
  exn_class not_connected
  = exn_class (RuntimeError_ [Lit "Failed to subscribe to topic: ";
                              ErrorString 1] None).
Proof. repeat split. Qed.

(** C5, as the code has it.  [publish] (of a non-empty message) and
    [subscribe] on a client that is not connected raise the not-connected
    error, a RuntimeError, without calling the engine.  When the engine
    returns a non-success code to [subscribe], the error is a RuntimeError
    as well: the two conditions differ by their message, not by their
    class. *)
Theorem not_connected_is_RuntimeError :
  exn_class not_connected = RuntimeError /\
  (forall message t s,
      message <> [] -> is_connected s = false ->
      publish message t s = (s, Raise not_connected)) /\
  (forall t s,
      is_connected s = false -> subscribe t s = (s, Raise not_connected)) /\
  (forall rc mid s,
      is_connected s = true -> rc <> MQTT_ERR_SUCCESS ->
      exists e,
        snd (subscribe (Ok (rc, mid)) s) = Raise e /\
        exn_class e = exn_class not_connected /\
        exn_str e = [Lit "Failed to subscribe to topic: "; ErrorString rc] /\
        exn_str e <> exn_str not_connected).
Proof.
  split; [reflexivity|split; [|split]].
  - intros message t s Hm H0. unfold publish.
    destruct message; [congruence|]. simpl. now rewrite H0.
  - intros t s H0. unfold subscribe. now rewrite H0.
  - intros rc mid s H1 Hrc. unfold subscribe. rewrite H1. simpl.
    apply Z.eqb_neq in Hrc. rewrite Hrc. simpl.
    eexists. split; [reflexivity|]. repeat split. discriminate.
Qed.

(** C6.  [publish] with an empty message raises a ValueError in every
    connection state and for every behaviour of the engine: the state is
    left as it was, and the error is neither a RuntimeError nor the
    not-connected error. *)
Theorem publish_empty_message_is_ValueError (t : result Z) (s : State) :
  publish [] t s = (s, Raise (ValueError_ "Message cannot be empty")) /\
  exn_class (ValueError_ "Message cannot be empty") = ValueError /\
  isinstance (ValueError_ "Message cannot be empty") RuntimeError = false /\
  ValueError_ "Message cannot be empty" <> not_connected.
Proof. repeat split. discriminate. Qed.

(* ================================================================== *)
(** ** Incoming messages *)


(* ================================================================== *)
(** ** Connecting twice *)

(** C8.  [connect] on a connected client is a no-op: for every timeout,
    every behaviour of the engine and any fuel, it returns normally at
    once, only logs that the client is already connected, issues no call
    to the engine, lets no time pass and leaves the flag true. *)
Theorem connect_when_connected_is_noop
    (fuel : nat) (timeout : Q) (env : connect_env) (s : State) :
  is_connected s = true ->
  exists s',
    connect fuel timeout env s = Some (s', Ok tt) /\
    s' = logger INFO [Lit "Already connected to MQTT broker"] s /\
    is_connected s' = true /\
    self s' = self s /\
    io (world s') = io (world s) /\
    clock (world s') = clock (world s).
Proof.
  intros H1. eexists. split; [exact (connect_already _ _ _ _ H1)|].
  repeat split. exact H1.
Qed.

(* ================================================================== *)
(** ** Construction *)

(** C9 as stated fails: the host [" "] is not empty, the port is in range
    and the topic is not empty, yet construction raises a ValueError. *)
Lemma blank_host_is_refused :
  text " " <> [] /\ 1 <= 1883 <= 65535 /\ text "test/topic" <> [] /\
  __init__ (text " ") 1883 (text "test/topic") None Samples.hex quiet
  = (quiet, Raise (ValueError_ "Broker host cannot be empty")).
Proof.
  split; [discriminate|]. split; [lia|]. split; [discriminate|]. reflexivity.
Qed.

(** C9, as the code has it.  Construction with an empty host, a port
    outside 1-65535 or an empty topic raises a ValueError and leaves the
    world as it was: no engine is created.  Construction with a host and a
    topic that are not empty once stripped of whitespace and a port within
    1-65535 succeeds: the client holds the arguments and is not connected,
    and the only exchange with the engine is the creation of the engine
    instance. *)
Theorem construction_validates
    (host : str) (port : Z) (tp : str) (cid : option str) (hex : str)
    (w : World) :
  (host = [] \/ port < 1 \/ 65535 < port \/ tp = [] ->
   exists e,
     __init__ host port tp cid hex w = (w, Raise e) /\
     exn_class e = ValueError) /\
  (strip host <> [] -> 1 <= port <= 65535 -> strip tp <> [] ->
   exists c,
     __init__ host port tp cid hex w
     = (w_call (mqtt_Client (_client_id c) MQTTv311) w, Ok c) /\
     _is_connected c = false /\
     _broker_host c = host /\ _broker_port c = port /\ _topic c = tp).
Proof.
  unfold __init__. split.
  - intros H.
    destruct (not_ (strip host)) eqn:Eh; [eexists; split; reflexivity|].
    destruct (negb ((1 <=? port) && (port <=? 65535))) eqn:Ep;
      [eexists; split; reflexivity|].
    destruct (not_ (strip tp)) eqn:Et; [eexists; split; reflexivity|].
    exfalso.
    apply negb_false_iff, andb_true_iff in Ep. destruct Ep as [Ep1 Ep2].
    apply Z.leb_le in Ep1, Ep2.
    destruct H as [-> | [H | [H | ->]]]; try lia; discriminate.
  - intros Hh Hp Ht.
    apply not_strip_false_iff in Hh, Ht. rewrite Hh, Ht.
    assert (Ep : negb ((1 <=? port) && (port <=? 65535)) = false).
    { apply negb_false_iff, andb_true_iff. split; apply Z.leb_le; lia. }
    rewrite Ep.
    eexists (Build_DirectMethodMqttClient host port tp _ false None).
    split; [reflexivity|]. repeat split.
Qed.

(** C10.  Validation is on the stripped strings: a host or a topic that
    consists of whitespace only, empty or not, makes construction raise a
    ValueError and leaves the world as it was.  For such a host the
    stripped host is empty and the error is the one for an empty host. *)
Theorem whitespace_host_or_topic_is_refused
    (host : str) (port : Z) (tp : str) (cid : option str) (hex : str)
    (w : World) :
  Forall (fun c => isspace c = true) host \/
  Forall (fun c => isspace c = true) tp ->
  exists e,
    __init__ host port tp cid hex w = (w, Raise e) /\
    exn_class e = ValueError /\
    (Forall (fun c => isspace c = true) host ->
     strip host = [] /\ e = ValueError_ "Broker host cannot be empty").
Proof.
  assert (Hblank : forall s0 : str,
             Forall (fun c => isspace c = true) s0 -> not_ (strip s0) = true).
  { intros s0 H. apply not_strip_iff, forallb_forall.
    now apply Forall_forall. }
  intros H. unfold __init__.
  destruct (not_ (strip host)) eqn:Eh.
  - eexists. split; [reflexivity|]. split; [reflexivity|].
    intros _. split; [|reflexivity]. now destruct (strip host).
  - destruct H as [H|H]; [apply Hblank in H; congruence|].
    apply Hblank in H.
    destruct (negb ((1 <=? port) && (port <=? 65535))).
    + eexists. split; [reflexivity|]. split; [reflexivity|].
      intros H'. apply Hblank in H'. congruence.
    + rewrite H. eexists. split; [reflexivity|]. split; [reflexivity|].
      intros H'. apply Hblank in H'. congruence.
Qed.

(* ================================================================== *)
(** ** The theorems at the sample runs *)


Lemma connect_fails_with_ConnectionError_witness :
  is_connected Samples.fresh = false /\
  (poll_bound 5 <= 50)%nat /\
  exists s' r,
    connect 50 5 Samples.silent Samples.fresh = Some (s', r) /\
    (forall e, r = Raise e ->
       isinstance e ConnectionError = true /\
       (exists past, io (world s') = Call client_loop_stop :: past) /\
       is_connected s' = false) /\
    (transport_connect Samples.silent = Ok MQTT_ERR_SUCCESS ->
     is_connected s' = false ->
     r = Raise (timeout_error 5) /\
     (5 <= clock (world s') - clock (world Samples.fresh))%Q /\
     exists past,
       io (world s') = Call client_loop_stop :: Call client_loop_stop :: past).
Proof.
  assert (Hf : (poll_bound 5 <= 50)%nat) by (vm_compute; lia).
  split; [reflexivity|]. split; [exact Hf|].
  destruct (connect_fails_with_ConnectionError
              50 5 Samples.silent Samples.fresh eq_refl Hf)
    as (s' & r & Hc & Hraise & _ & Htimeout & _).
  exists s', r. split; [exact Hc|]. split; [exact Hraise|exact Htimeout].
Defined.


Lemma disconnect_never_fails_witness :
  is_connected Samples.fresh = false /\
  is_connected Samples.connected_state = true /\
  fst (disconnect (Ok 0) Samples.fresh)
  = logger INFO [Lit "Not connected to MQTT broker"] Samples.fresh /\
  io (world (fst (disconnect (Ok 0) Samples.connected_state)))
  = Call client_loop_stop :: Call client_disconnect
      :: io (world Samples.connected_state) /\
  snd (disconnect (Raise Samples.socket_closed) Samples.connected_state) = Ok tt /\
  is_connected
    (fst (disconnect (Raise Samples.socket_closed) Samples.connected_state))
  = false /\
  logged (world (fst (disconnect (Raise Samples.socket_closed)
                                 Samples.connected_state)))
  = (ERROR, [Lit "Error during disconnect: "; Lit "Bad file descriptor"])
      :: (INFO, [Lit "Disconnecting from MQTT broker"])
      :: logged (world Samples.connected_state).
Proof.
  split; [reflexivity|]. split; [reflexivity|].
  destruct (disconnect_never_fails (Ok 0) Samples.fresh)
    as (_ & _ & Hnoop & _).
  destruct (disconnect_never_fails (Ok 0) Samples.connected_state)
    as (_ & _ & _ & Hclean & _).
  destruct (disconnect_never_fails (Raise Samples.socket_closed)
                                   Samples.connected_state)
    as (Hok & Hflag & _ & _ & Herr).
  split; [exact (Hnoop eq_refl)|].
  split; [exact (Hclean 0 eq_refl eq_refl)|].
  split; [exact Hok|]. split; [exact Hflag|].
  exact (proj2 (Herr Samples.socket_closed eq_refl eq_refl)).
Defined.

Lemma not_connected_is_RuntimeError_witness :
  text "hello" <> [] /\
  is_connected Samples.fresh = false /\
  is_connected Samples.connected_state = true /\
  1 <> MQTT_ERR_SUCCESS /\
  publish (text "hello") (Ok 0) Samples.fresh
  = (Samples.fresh, Raise not_connected) /\
  subscribe (Ok (0, 1)) Samples.fresh = (Samples.fresh, Raise not_connected) /\
  exists e,
    snd (subscribe (Ok (1, 0)) Samples.connected_state) = Raise e /\
    exn_class e = exn_class not_connected /\
    exn_str e = [Lit "Failed to subscribe to topic: "; ErrorString 1] /\
    exn_str e <> exn_str not_connected.
Proof.
  assert (Hm : text "hello" <> []) by discriminate.
  assert (Hrc : 1 <> MQTT_ERR_SUCCESS) by discriminate.
  destruct not_connected_is_RuntimeError as (_ & Hpub & Hsub & Hfail).
  split; [exact Hm|]. split; [reflexivity|]. split; [reflexivity|].
  split; [exact Hrc|].
  split; [exact (Hpub (text "hello") (Ok 0) Samples.fresh Hm eq_refl)|].
  split; [exact (Hsub (Ok (0, 1)) Samples.fresh eq_refl)|].
  exact (Hfail 1 0 Samples.connected_state eq_refl Hrc).
Defined.


Lemma connect_when_connected_is_noop_witness :
  is_connected Samples.connected_state = true /\
  exists s',
    connect 0 5 Samples.unreachable Samples.connected_state = Some (s', Ok tt) /\
    s' = logger INFO [Lit "Already connected to MQTT broker"]
                Samples.connected_state /\
    is_connected s' = true /\
    self s' = self Samples.connected_state /\
    io (world s') = io (world Samples.connected_state) /\
    clock (world s') = clock (world Samples.connected_state).
Proof.
  split; [reflexivity|].
  exact (connect_when_connected_is_noop
           0 5 Samples.unreachable Samples.connected_state eq_refl).
Defined.

Lemma construction_validates_witness :
  ([] = @nil N \/ 1883 < 1 \/ 65535 < 1883 \/ Samples.test_topic = []) /\
  (Samples.localhost = [] \/ 70000 < 1 \/ 65535 < 70000
   \/ Samples.test_topic = []) /\
  strip Samples.localhost <> [] /\ 1 <= 1883 <= 65535 /\
  strip Samples.test_topic <> [] /\
  (exists e,
      __init__ [] 1883 Samples.test_topic None Samples.hex quiet
      = (quiet, Raise e) /\ exn_class e = ValueError) /\
  (exists e,
      __init__ Samples.localhost 70000 Samples.test_topic None Samples.hex quiet
      = (quiet, Raise e) /\ exn_class e = ValueError) /\
  (exists c,
      __init__ Samples.localhost 1883 Samples.test_topic None Samples.hex quiet
      = (w_call (mqtt_Client (_client_id c) MQTTv311) quiet, Ok c) /\
      _is_connected c = false /\
      _broker_host c = Samples.localhost /\ _broker_port c = 1883 /\
      _topic c = Samples.test_topic).
Proof.
  assert (H1 : [] = @nil N \/ 1883 < 1 \/ 65535 < 1883
               \/ Samples.test_topic = []) by (left; reflexivity).
  assert (H2 : Samples.localhost = [] \/ 70000 < 1 \/ 65535 < 70000
               \/ Samples.test_topic = []) by (right; right; left; lia).
  assert (H3 : strip Samples.localhost <> []) by (vm_compute; discriminate).
  assert (H4 : 1 <= 1883 <= 65535) by lia.
  assert (H5 : strip Samples.test_topic <> []) by (vm_compute; discriminate).
  split; [exact H1|]. split; [exact H2|]. split; [exact H3|].
  split; [exact H4|]. split; [exact H5|].
  split; [|split].
  - exact (proj1 (construction_validates [] 1883 Samples.test_topic None
                    Samples.hex quiet) H1).
  - exact (proj1 (construction_validates Samples.localhost 70000
                    Samples.test_topic None Samples.hex quiet) H2).
  - exact (proj2 (construction_validates Samples.localhost 1883
                    Samples.test_topic None Samples.hex quiet) H3 H4 H5).
Defined.

Lemma whitespace_host_or_topic_is_refused_witness :
  text " " <> [] /\
  (Forall (fun c => isspace c = true) (text " ") \/
   Forall (fun c => isspace c = true) Samples.test_topic) /\
  exists e,
    __init__ (text " ") 1883 Samples.test_topic None Samples.hex quiet
    = (quiet, Raise e) /\
    exn_class e = ValueError /\
    (Forall (fun c => isspace c = true) (text " ") ->
     strip (text " ") = [] /\ e = ValueError_ "Broker host cannot be empty").
Proof.
  assert (H : Forall (fun c => isspace c = true) (text " ") \/
              Forall (fun c => isspace c = true) Samples.test_topic)
    by (left; repeat constructor).
  split; [discriminate|]. split; [exact H|].
  exact (whitespace_host_or_topic_is_refused
           (text " ") 1883 Samples.test_topic None Samples.hex quiet H).
Defined.

(* ================================================================== *)
(** ** Further properties of the client *)

(* ------------------------------------------------------------------ *)
(** *** What no method and no handler touches *)

Lemma dispatch_identity (ev : event) (s : State) :
  identity (fst (dispatch ev s)) = identity s.
Proof.
  unfold identity. destruct ev; simpl;
    try (unfold _on_connect, _on_disconnect, _on_log;
         repeat split_match; reflexivity).
  now destruct (_on_message_frame msg (handled (on_message msg) s)) as (-> & _ & _).
Qed.

Lemma dispatch_calls (ev : event) (s : State) :
  calls_of (io (world (fst (dispatch ev s)))) = calls_of (io (world s)).
Proof. now rewrite dispatch_io. Qed.

Lemma deliver_identity (evs : list event) (s : State) :
  identity (fst (deliver evs s)) = identity s.
Proof.
  revert s. induction evs as [|ev evs IH]; intros s.
  - reflexivity.
  - rewrite deliver_cons, IH. apply dispatch_identity.
Qed.

Lemma calls_of_handlers (evs : list event) (l : list io_event) :
  calls_of (map Handler evs ++ l) = calls_of l.
Proof. induction evs as [|ev evs IH]; simpl; auto. Qed.


(** The wait loop leaves the identity alone and only lets handlers run. *)
Lemma wait_connected_frame fuel dl start timeout s s' :
  wait_connected fuel dl start timeout s = Some s' ->
  identity s' = identity s /\
  exists evs, io (world s') = map Handler evs ++ io (world s).
Proof.
  apply (wait_connected_invariant
           (fun x => identity x = identity s /\
                     exists evs, io (world x) = map Handler evs ++ io (world s))).
  - intros evs x [Hid (evs0 & Hio)]. split.
    + change (identity (fst (deliver evs x)) = identity s).
      now rewrite deliver_identity.
    + exists (rev evs ++ evs0).
      change (io (world (fst (deliver evs x)))
              = map Handler (rev evs ++ evs0) ++ io (world s)).
      rewrite deliver_io, Hio, map_app, map_rev, app_assoc. reflexivity.
  - split; [reflexivity|]. now exists [].
Qed.

(** The exchange with the engine that a call of [connect] adds. *)
Lemma connect_frame fuel timeout env s s' r :
  connect fuel timeout env s = Some (s', r) ->
  identity s' = identity s /\
  exists added,
    io (world s') = added ++ io (world s) /\
    Forall (fun c => c = client_connect (_broker_host (self s))
                                        (_broker_port (self s)) 60
                     \/ c = client_loop_start \/ c = client_loop_stop)
           (calls_of added).
Proof.
  intros Hc. destruct (is_connected s) eqn:H0.
  - rewrite (connect_already _ _ _ _ H0) in Hc. injection Hc as <- _.
    split; [reflexivity|]. exists []. split; [reflexivity|constructor].
  - destruct (transport_cases env) as [(e & Ht) | [(rc & Ht & Hrc) | Ht]].
    + rewrite (connect_transport_raises _ _ _ _ _ H0 Ht) in Hc.
      injection Hc as <- _. split; [reflexivity|].
      eexists [_; _]. split; [reflexivity|]. simpl. repeat (apply Forall_cons; [auto 6|]). apply Forall_nil.
    + rewrite (connect_transport_refuses _ _ _ _ _ H0 Ht Hrc) in Hc.
      injection Hc as <- _. split; [reflexivity|].
      eexists [_; _]. split; [reflexivity|]. simpl. repeat (apply Forall_cons; [auto 6|]). apply Forall_nil.
    + rewrite (connect_waits _ _ _ _ H0 Ht) in Hc.
      destruct (wait_connected fuel (deliveries env) (clock (world s)) timeout
                               (call client_loop_start (connecting s)))
        as [s2|] eqn:Hw; [|discriminate].
      destruct (wait_connected_frame _ _ _ _ _ _ Hw) as [Hid (evs & Hio)].
      assert (Hcalls : Forall
                (fun c => c = client_connect (_broker_host (self s))
                                             (_broker_port (self s)) 60
                          \/ c = client_loop_start \/ c = client_loop_stop)
                (calls_of (map Handler evs
                             ++ [Call client_loop_start;
                                 Call (client_connect (_broker_host (self s))
                                         (_broker_port (self s)) 60)]))).
      { rewrite calls_of_handlers. simpl. repeat (apply Forall_cons; [auto 6|]). apply Forall_nil. }
      destruct (is_connected s2); injection Hc as <- _.
      * split; [exact Hid|].
        exists (map Handler evs
                  ++ [Call client_loop_start;
                      Call (client_connect (_broker_host (self s))
                                           (_broker_port (self s)) 60)]).
        split; [|exact Hcalls].
        rewrite Hio, <- app_assoc. reflexivity.
      * split; [exact Hid|].
        exists (Call client_loop_stop :: Call client_loop_stop
                  :: map Handler evs
                  ++ [Call client_loop_start;
                      Call (client_connect (_broker_host (self s))
                                           (_broker_port (self s)) 60)]).
        split.
        -- simpl. rewrite Hio, <- app_assoc. reflexivity.
        -- simpl. do 2 (apply Forall_cons; [auto 6|]). exact Hcalls.
Qed.

Lemma wire_conformant_connect_calls host port tp cid (l : list engine_call) :
  Forall (fun c => c = client_connect host port 60
                   \/ c = client_loop_start \/ c = client_loop_stop) l ->
  Forall (wire_conformant host port tp cid) l.
Proof.
  apply Forall_impl. intros c [-> | [-> | ->]]; simpl; auto.
Qed.

(** What one step adds to the exchange with the engine. *)
Lemma step_frame fuel a s s' r :
  step fuel a s = Some (s', r) ->
  identity s' = identity s /\
  exists added,
    io (world s') = added ++ io (world s) /\
    Forall (wire_conformant (_broker_host (self s)) (_broker_port (self s))
                            (_topic (self s)) (_client_id (self s)))
           (calls_of added).
Proof.
  destruct a; simpl.
  - intros Hc. destruct (connect_frame _ _ _ _ _ _ Hc) as [Hid (added & Hio & Hf)].
    split; [exact Hid|]. exists added. split; [exact Hio|].
    now apply wire_conformant_connect_calls.
  - intros H. apply (f_equal (option_map fst)) in H. simpl in H.
    injection H as <-. unfold disconnect.
    destruct (is_connected s); simpl.
    + destruct transport_disconnect; simpl; (split; [reflexivity|]).
      * exists [Call client_loop_stop; Call client_disconnect].
        split; [reflexivity|]. simpl. repeat constructor.
      * exists [Call client_disconnect]. split; [reflexivity|]. simpl.
        repeat constructor.
    + split; [reflexivity|]. exists []. split; [reflexivity|constructor].
  - intros H. apply (f_equal (option_map fst)) in H. simpl in H.
    injection H as <-. unfold publish.
    destruct message as [|c message]; simpl.
    + split; [reflexivity|]. exists []. split; [reflexivity|constructor].
    + destruct (is_connected s); simpl.
      * assert (Hadd : exists added,
                   Call (client_publish (_topic (self s)) (c :: message) 0)
                        :: io (world s) = added ++ io (world s) /\
                   Forall (wire_conformant (_broker_host (self s))
                             (_broker_port (self s)) (_topic (self s))
                             (_client_id (self s))) (calls_of added)).
        { exists [Call (client_publish (_topic (self s)) (c :: message) 0)].
          split; [reflexivity|]. simpl. constructor; [|constructor].
          repeat split. discriminate. }
        destruct transport_publish as [rc|e]; simpl.
        -- destruct (rc =? MQTT_ERR_SUCCESS); simpl; (split; [reflexivity|exact Hadd]).
        -- destruct (isinstance e RuntimeError); simpl;
             (split; [reflexivity|exact Hadd]).
      * split; [reflexivity|]. exists []. split; [reflexivity|constructor].
  - intros H. apply (f_equal (option_map fst)) in H. simpl in H.
    injection H as <-. unfold subscribe.
    destruct (is_connected s); simpl.
    + assert (Hadd : exists added,
                 Call (client_subscribe (_topic (self s)) 0) :: io (world s)
                 = added ++ io (world s) /\
                 Forall (wire_conformant (_broker_host (self s))
                           (_broker_port (self s)) (_topic (self s))
                           (_client_id (self s))) (calls_of added)).
      { exists [Call (client_subscribe (_topic (self s)) 0)].
        split; [reflexivity|]. simpl. constructor; [|constructor]. now split. }
      destruct transport_subscribe as [[rc mid]|e]; simpl.
      * destruct (rc =? MQTT_ERR_SUCCESS); simpl; (split; [reflexivity|exact Hadd]).
      * destruct (isinstance e RuntimeError); simpl;
          (split; [reflexivity|exact Hadd]).
    + split; [reflexivity|]. exists []. split; [reflexivity|constructor].
  - intros H. apply (f_equal (option_map fst)) in H. simpl in H.
    injection H as <-. split; [reflexivity|].
    exists []. split; [reflexivity|constructor].
  - intros H. apply (f_equal (option_map fst)) in H. simpl in H.
    injection H as <-. split; [apply dispatch_identity|].
    exists [Handler ev]. split; [apply dispatch_io|constructor].
Qed.

Lemma run_frame fuel tr s s' :
  run fuel tr s = Some s' ->
  identity s' = identity s /\
  exists added,
    io (world s') = added ++ io (world s) /\
    Forall (wire_conformant (_broker_host (self s)) (_broker_port (self s))
                            (_topic (self s)) (_client_id (self s)))
           (calls_of added).
Proof.
  revert s. induction tr as [|a tr IH]; intros s; simpl.
  - intros [= <-]. split; [reflexivity|].
    exists []. split; [reflexivity|constructor].
  - destruct (step fuel a s) as [[s1 r]|] eqn:E; [|discriminate].
    intros Hrun.
    destruct (step_frame _ _ _ _ _ E) as [Hid1 (add1 & Hio1 & Hf1)].
    destruct (IH _ Hrun) as [Hid2 (add2 & Hio2 & Hf2)].
    split; [congruence|].
    exists (add2 ++ add1). split.
    + rewrite Hio2, Hio1, app_assoc. reflexivity.
    + assert (Hcalls : forall l1 l2, calls_of (l1 ++ l2)
                                     = calls_of l1 ++ calls_of l2).
      { induction l1 as [|[c|ev] l1 IHl]; intros l2; simpl;
          rewrite ?IHl; reflexivity. }
      rewrite Hcalls. apply Forall_app. split; [|exact Hf1].
      unfold identity in Hid1. injection Hid1 as E1 E2 E3 E4.
      now rewrite E1, E2, E3, E4 in Hf2.
Qed.

Lemma constructed_attributes host port tp cid hex w s0 :
  constructed host port tp cid hex w = Ok s0 ->
  _broker_host (self s0) = host /\ _broker_port (self s0) = port /\
  _topic (self s0) = tp /\
  io (world s0) = Call (mqtt_Client (_client_id (self s0)) MQTTv311) :: io w.
Proof.
  unfold constructed, __init__.
  destruct (not_ (strip host)); [discriminate|].
  destruct (negb ((1 <=? port) && (port <=? 65535))); [discriminate|].
  destruct (not_ (strip tp)); [discriminate|].
  intros [= <-]. simpl. repeat split.
Qed.

(** X1.  Host, port, topic and client identifier are fixed at construction:
    after every run of method calls and dispatched events the properties
    [topic], [broker_info] and [client_id] still return what the client was
    constructed with. *)
Theorem identity_survives_every_run
    (host : str) (port : Z) (tp : str) (cid : option str) (hex : str)
    (w : World) (s0 : State) (fuel : nat) (tr : list action) :
  constructed host port tp cid hex w = Ok s0 ->
  (fuel_for tr <= fuel)%nat ->
  exists s,
    run fuel tr s0 = Some s /\
    topic s = tp /\
    broker_info s = (host, port) /\
    client_id s = client_id s0.
Proof.
  intros Hs0 Hf.
  destruct (run_terminates fuel tr s0 Hf) as [s Hrun].
  destruct (run_frame _ _ _ _ Hrun) as [Hid _].
  destruct (constructed_attributes _ _ _ _ _ _ _ Hs0) as (Hh & Hp & Ht & _).
  unfold identity in Hid. injection Hid as E1 E2 E3 E4.
  exists s. unfold topic, broker_info, client_id.
  repeat split; congruence.
Qed.

(** X2.  A client only ever speaks to the engine in one way: over every
    run, every call it has issued is the creation of the engine with its
    client identifier and protocol 3.1.1, a connect to its host and port
    with keepalive 60, a publish of a non-empty payload or a subscribe on
    its one topic at QoS 0, or a loop start, loop stop or disconnect. *)
Theorem every_engine_call_is_wire_conformant
    (host : str) (port : Z) (tp : str) (cid : option str) (hex : str)
    (w : World) (s0 : State) (fuel : nat) (tr : list action) :
  io w = [] ->
  constructed host port tp cid hex w = Ok s0 ->
  (fuel_for tr <= fuel)%nat ->
  exists s,
    run fuel tr s0 = Some s /\
    Forall (wire_conformant host port tp (client_id s0))
           (calls_of (io (world s))).
Proof.
  intros Hw Hs0 Hf.
  destruct (run_terminates fuel tr s0 Hf) as [s Hrun].
  destruct (run_frame _ _ _ _ Hrun) as [_ (added & Hio & Hadd)].
  destruct (constructed_attributes _ _ _ _ _ _ _ Hs0) as (Hh & Hp & Ht & Hio0).
  exists s. split; [exact Hrun|].
  assert (Hcalls : forall l1 l2, calls_of (l1 ++ l2) = calls_of l1 ++ calls_of l2).
  { induction l1 as [|[c|ev] l1 IHl]; intros l2; simpl;
      rewrite ?IHl; reflexivity. }
  rewrite Hio, Hcalls, Hio0, Hw. apply Forall_app. split.
  - now rewrite Hh, Hp, Ht in Hadd.
  - simpl. constructor; [|constructor]. now split.
Qed.

(* ------------------------------------------------------------------ *)
(** *** The contracts of [publish], [subscribe] and [disconnect] *)

(** X3.  [publish] returns normally exactly when the message is not empty,
    the client is connected and the engine returns the success code.  On a
    connected client a non-empty message costs exactly one publish call, on
    the client's topic at QoS 0, whatever the engine answers; with an empty
    message or without a connection the state is left as it was and the
    engine is not called.  The client object is never changed. *)
Theorem publish_succeeds_exactly_when_sent
    (message : str) (t : result Z) (s : State) :
  (snd (publish message t s) = Ok tt <->
   message <> [] /\ is_connected s = true /\ t = Ok MQTT_ERR_SUCCESS) /\
  (message <> [] -> is_connected s = true ->
   io (world (fst (publish message t s)))
   = Call (client_publish (topic s) message 0) :: io (world s)) /\
  (message = [] \/ is_connected s = false -> fst (publish message t s) = s) /\
  self (fst (publish message t s)) = self s.
Proof.
  unfold publish, topic, MQTT_ERR_SUCCESS.
  destruct message as [|c message]; simpl.
  { split; [|split; [|split]].
    - split; [discriminate|]. intros (H & _). now contradiction H.
    - intros H. now contradiction H.
    - reflexivity.
    - reflexivity. }
  destruct (is_connected s) eqn:H0; simpl.
  - destruct t as [rc|e]; simpl.
    + destruct (rc =? 0) eqn:Erc; simpl.
      * apply Z.eqb_eq in Erc. subst rc. split; [|split; [|split]].
        -- split; [|reflexivity]. intros _.
           split; [discriminate|]. now split.
        -- reflexivity.
        -- intros [H|H]; discriminate.
        -- reflexivity.
      * apply Z.eqb_neq in Erc. split; [|split; [|split]].
        -- split; [discriminate|]. intros (_ & _ & [= H]). contradiction.
        -- reflexivity.
        -- intros [H|H]; discriminate.
        -- reflexivity.
    + destruct (isinstance e RuntimeError); simpl;
        (split; [|split; [|split]]);
        [ split; [discriminate|]; intros (_ & _ & H); discriminate
        | reflexivity
        | intros [H|H]; discriminate
        | reflexivity
        | split; [discriminate|]; intros (_ & _ & H); discriminate
        | reflexivity
        | intros [H|H]; discriminate
        | reflexivity ].
  - split; [|split; [|split]].
    + split; [discriminate|]. intros (_ & H & _). discriminate.
    + intros _ H. discriminate.
    + reflexivity.
    + reflexivity.
Qed.

(** X4.  What [publish] raises.  An exception out of [publish] is the
    ValueError for an empty message, or else an instance of RuntimeError:
    the not-connected error, the error carrying the description of the
    engine's non-success code, an engine exception that already is a
    RuntimeError, raised again as it is, or any other engine exception
    wrapped into a RuntimeError that has it as its cause. *)
Theorem publish_raises_ValueError_or_RuntimeError
    (message : str) (t : result Z) (s : State) (e : exn) :
  snd (publish message t s) = Raise e ->
  (message = [] /\ e = ValueError_ "Message cannot be empty") \/
  (message <> [] /\ isinstance e RuntimeError = true /\
   (is_connected s = false -> e = not_connected) /\
   (forall rc, is_connected s = true -> t = Ok rc ->
      rc <> MQTT_ERR_SUCCESS /\
      e = RuntimeError_ [Lit "Failed to publish message: "; ErrorString rc]
                        None) /\
   (forall e0, is_connected s = true -> t = Raise e0 ->
      (isinstance e0 RuntimeError = true -> e = e0) /\
      (isinstance e0 RuntimeError = false ->
       e = RuntimeError_ (Lit "Failed to publish message: " :: exn_str e0)
                         (Some e0)))).
Proof.
  unfold publish, MQTT_ERR_SUCCESS.
  destruct message as [|c message]; simpl.
  { intros [= <-]. now left. }
  intros H. right. split; [discriminate|].
  destruct (is_connected s) eqn:H0; simpl in H.
  - destruct t as [rc|e0]; simpl in H.
    + destruct (rc =? 0) eqn:Erc; simpl in H; [discriminate|].
      apply Z.eqb_neq in Erc. injection H as <-.
      split; [reflexivity|]. split; [discriminate|]. split.
      * intros rc' _ [= <-]. now split.
      * intros e0 _ He0. discriminate.
    + destruct (isinstance e0 RuntimeError) eqn:Ei; simpl in H;
        injection H as <-.
      * split; [exact Ei|]. split; [discriminate|]. split.
        -- intros rc _ Hrc. discriminate.
        -- intros e1 _ [= <-]. split; congruence.
      * split; [reflexivity|]. split; [discriminate|]. split.
        -- intros rc _ Hrc. discriminate.
        -- intros e1 _ [= <-]. split; congruence.
  - injection H as <-. split; [reflexivity|]. split; [reflexivity|].
    split; intros; discriminate.
Qed.

(** X5.  [subscribe] returns normally exactly when the client is connected
    and the engine returns the success code; every exception it raises is
    an instance of RuntimeError.  On a connected client each call issues
    one subscribe call on the client's topic at QoS 0, so subscribing again
    registers again: the client keeps no record of being subscribed.
    Without a connection the state is left as it was.  The client object
    is never changed. *)
Theorem subscribe_registers_on_every_call (t : result (Z * Z)) (s : State) :
  (snd (subscribe t s) = Ok tt <->
   is_connected s = true /\ exists mid, t = Ok (MQTT_ERR_SUCCESS, mid)) /\
  (forall e, snd (subscribe t s) = Raise e -> isinstance e RuntimeError = true) /\
  (is_connected s = true ->
   forall t2,
     io (world (fst (subscribe t2 (fst (subscribe t s)))))
     = Call (client_subscribe (topic s) 0)
         :: Call (client_subscribe (topic s) 0) :: io (world s)) /\
  (is_connected s = false -> fst (subscribe t s) = s) /\
  self (fst (subscribe t s)) = self s.
Proof.
  assert (Hone : forall t0 s0,
             is_connected s0 = true ->
             io (world (fst (subscribe t0 s0)))
             = Call (client_subscribe (topic s0) 0) :: io (world s0) /\
             self (fst (subscribe t0 s0)) = self s0).
  { intros t0 s0 H1. unfold subscribe, topic. rewrite H1. simpl.
    destruct t0 as [[rc mid]|e]; simpl.
    - destruct (rc =? MQTT_ERR_SUCCESS); simpl; now split.
    - destruct (isinstance e RuntimeError); simpl; now split. }
  split; [|split; [|split; [|split]]].
  - unfold subscribe, MQTT_ERR_SUCCESS.
    destruct (is_connected s) eqn:H0; simpl.
    + destruct t as [[rc mid]|e]; simpl.
      * destruct (rc =? 0) eqn:Erc; simpl.
        -- apply Z.eqb_eq in Erc. subst rc. split; [|reflexivity].
           intros _. split; [reflexivity|]. now exists mid.
        -- apply Z.eqb_neq in Erc. split; [discriminate|].
           intros (_ & mid' & [= -> _]). congruence.
      * destruct (isinstance e RuntimeError); simpl;
          (split; [discriminate|]); intros (_ & mid' & H); discriminate.
    + split; [discriminate|]. intros (H & _). discriminate.
  - intros e. unfold subscribe.
    destruct (is_connected s); simpl.
    + destruct t as [[rc mid]|e0]; simpl.
      * destruct (rc =? MQTT_ERR_SUCCESS); simpl; [discriminate|].
        intros [= <-]. reflexivity.
      * destruct (isinstance e0 RuntimeError) eqn:Ei; simpl;
          intros [= <-]; [exact Ei|reflexivity].
    + intros [= <-]. reflexivity.
  - intros H1 t2.
    destruct (Hone t s H1) as [Hio Hself].
    assert (H1' : is_connected (fst (subscribe t s)) = true)
      by (unfold is_connected in *; now rewrite Hself).
    destruct (Hone t2 _ H1') as [Hio2 _].
    rewrite Hio2, Hio. unfold topic. now rewrite Hself.
  - intros H0. unfold subscribe. now rewrite H0.
  - destruct (is_connected s) eqn:H0.
    + now destruct (Hone t s H0).
    + unfold subscribe. now rewrite H0.
Qed.

(** X6.  [disconnect] is idempotent and final: after a first [disconnect],
    whatever the engine did during it, a second one only logs that the
    client is not connected and calls nothing, and [publish] and
    [subscribe] raise the not-connected error. *)
Theorem disconnect_twice_is_disconnect_once (t1 t2 : result Z) (s : State) :
  disconnect t2 (fst (disconnect t1 s))
  = (logger INFO [Lit "Not connected to MQTT broker"] (fst (disconnect t1 s)),
     Ok tt) /\
  io (world (fst (disconnect t2 (fst (disconnect t1 s)))))
  = io (world (fst (disconnect t1 s))) /\
  (forall message t, message <> [] ->
     snd (publish message t (fst (disconnect t1 s))) = Raise not_connected) /\
  (forall t, snd (subscribe t (fst (disconnect t1 s))) = Raise not_connected).
Proof.
  assert (H0 : is_connected (fst (disconnect t1 s)) = false).
  { unfold disconnect. destruct (is_connected s) eqn:E; simpl.
    - now destruct t1.
    - exact E. }
  assert (H2 : disconnect t2 (fst (disconnect t1 s))
               = (logger INFO [Lit "Not connected to MQTT broker"]
                         (fst (disconnect t1 s)), Ok tt)).
  { unfold disconnect at 1. now rewrite H0. }
  split; [exact H2|]. split; [now rewrite H2|]. split.
  - intros message t Hm. unfold publish. rewrite H0.
    destruct message; [congruence|reflexivity].
  - intros t. unfold subscribe. now rewrite H0.
Qed.

(* ------------------------------------------------------------------ *)
(** *** How [connect] ends *)

(** X7.  A [connect] that starts an attempt and returns normally has been
    acknowledged and leaves the network loop running: the transport-level
    connect returned the success code, a handler received an on-connect
    with code 0, the flag is true, and what the call added to the exchange
    with the engine is the connect call, the loop start and handler
    invocations, with no loop stop and no disconnect. *)
Theorem connect_success_leaves_loop_running
    (fuel : nat) (timeout : Q) (env : connect_env) (s s' : State) :
  is_connected s = false ->
  connect fuel timeout env s = Some (s', Ok tt) ->
  transport_connect env = Ok MQTT_ERR_SUCCESS /\
  is_connected s' = true /\
  In (on_connect 0) (List.concat (deliveries env)) /\
  exists evs,
    io (world s')
    = map Handler evs
        ++ Call client_loop_start
        :: Call (client_connect (_broker_host (self s)) (_broker_port (self s)) 60)
        :: io (world s).
Proof.
  intros H0 Hc.
  destruct (transport_cases env) as [(e & Ht) | [(rc & Ht & Hrc) | Ht]].
  - rewrite (connect_transport_raises _ _ _ _ _ H0 Ht) in Hc. discriminate.
  - rewrite (connect_transport_refuses _ _ _ _ _ H0 Ht Hrc) in Hc. discriminate.
  - pose proof Hc as Hc'. rewrite (connect_waits _ _ _ _ H0 Ht) in Hc'.
    destruct (wait_connected fuel (deliveries env) (clock (world s)) timeout
                             (call client_loop_start (connecting s)))
      as [s2|] eqn:Hw; [|discriminate].
    destruct (is_connected s2) eqn:H2; [|discriminate].
    injection Hc' as <-.
    split; [exact Ht|]. split; [exact H2|]. split.
    + exact (connect_raises_flag _ _ _ _ _ _ Hc H0 H2).
    + destruct (wait_connected_frame _ _ _ _ _ _ Hw) as [_ (evs & Hio)].
      exists evs. exact Hio.
Qed.

(** X8.  A handshake that is never acknowledged with code 0 ends as a
    timeout, also when the broker refuses it: if the transport-level
    connect succeeds and no on-connect with code 0 is among the events the
    network loop handles, [connect] raises the timeout error, not before
    the whole timeout has elapsed, and the flag is false. *)
Theorem unacknowledged_connect_times_out
    (fuel : nat) (timeout : Q) (env : connect_env) (s : State) :
  is_connected s = false ->
  transport_connect env = Ok MQTT_ERR_SUCCESS ->
  ~ In (on_connect 0) (List.concat (deliveries env)) ->
  (poll_bound timeout <= fuel)%nat ->
  exists s',
    connect fuel timeout env s = Some (s', Raise (timeout_error timeout)) /\
    is_connected s' = false /\
    (timeout <= clock (world s') - clock (world s))%Q.
Proof.
  intros H0 Ht Hno Hf.
  rewrite (connect_waits _ _ _ _ H0 Ht).
  destruct (wait_connected_terminates fuel (deliveries env)
              (clock (world s)) timeout
              (call client_loop_start (connecting s))) as [s2 Hw].
  { apply poll_bound_enough in Hf. simpl. lra. }
  rewrite Hw.
  destruct (is_connected s2) eqn:H2.
  - exfalso. apply Hno.
    exact (wait_connected_raises_flag
             _ _ _ _ (call client_loop_start (connecting s)) _ H0 Hw H2).
  - eexists. split; [reflexivity|]. split; [exact H2|].
    destruct (wait_connected_exit _ _ _ _ _ _ Hw) as [H|H]; [congruence|].
    exact H.
Qed.





(* ------------------------------------------------------------------ *)
(** *** Callbacks and handlers *)




(* ------------------------------------------------------------------ *)
(** *** Destruction *)

(** X12.  [__del__] never raises and leaves the flag false.  On a client
    that is not connected it does nothing at all, not even log, unlike
    [disconnect]; on a connected client it does what [disconnect] does. *)
Theorem del_never_raises (t : result Z) (s : State) :
  snd (__del__ t s) = Ok tt /\
  is_connected (fst (__del__ t s)) = false /\
  (is_connected s = false -> fst (__del__ t s) = s) /\
  (is_connected s = true -> __del__ t s = disconnect t s).
Proof.
  unfold __del__. destruct (is_connected s) eqn:H0; simpl.
  - assert (Hd : snd (disconnect t s) = Ok tt /\
                 is_connected (fst (disconnect t s)) = false).
    { unfold disconnect. rewrite H0. simpl. destruct t; simpl; now split. }
    destruct Hd as [Hok Hflag].
    destruct (disconnect t s) as [s' r] eqn:E. simpl in *. subst r.
    simpl. repeat split; try congruence.
  - repeat split; try congruence.
Qed.

(* ------------------------------------------------------------------ *)
(** *** Construction, in full *)

(** X13.  [__init__] checks host, port and topic in this order and reports
    the first that fails: a host of whitespace only gives the host error
    whatever port and topic are; otherwise a port outside 1-65535 gives the
    port error whatever the topic is; otherwise a topic of whitespace only
    gives the topic error.  Construction succeeds exactly when host and
    topic hold a character that is not whitespace and the port is within
    1-65535. *)
Theorem construction_reports_first_failure
    (host : str) (port : Z) (tp : str) (cid : option str) (hex : str)
    (w : World) :
  (forallb isspace host = true ->
   __init__ host port tp cid hex w
   = (w, Raise (ValueError_ "Broker host cannot be empty"))) /\
  (forallb isspace host = false -> port < 1 \/ 65535 < port ->
   __init__ host port tp cid hex w
   = (w, Raise (ValueError_ "Broker port must be between 1 and 65535"))) /\
  (forallb isspace host = false -> 1 <= port <= 65535 ->
   forallb isspace tp = true ->
   __init__ host port tp cid hex w
   = (w, Raise (ValueError_ "Topic cannot be empty"))) /\
  (is_ok (snd (__init__ host port tp cid hex w)) = true <->
   forallb isspace host = false /\ 1 <= port <= 65535 /\
   forallb isspace tp = false).
Proof.
  assert (Hstrip : forall s0 : str, not_ (strip s0) = forallb isspace s0).
  { intros s0. destruct (forallb isspace s0) eqn:E.
    - now apply not_strip_iff.
    - destruct (not_ (strip s0)) eqn:E'; [|reflexivity].
      apply not_strip_iff in E'. congruence. }
  assert (Hport : forall p, negb ((1 <=? p) && (p <=? 65535)) = false
                            <-> 1 <= p <= 65535).
  { intros p. rewrite negb_false_iff, andb_true_iff, !Z.leb_le. tauto. }
  unfold __init__. rewrite !Hstrip.
  split; [|split; [|split]].
  - now intros ->.
  - intros -> Hp.
    destruct (negb ((1 <=? port) && (port <=? 65535))) eqn:Ep; [reflexivity|].
    apply Hport in Ep. lia.
  - intros -> Hp ->. apply Hport in Hp. now rewrite Hp.
  - destruct (forallb isspace host); simpl.
    { split; [discriminate|]. intros (H & _). discriminate. }
    destruct (negb ((1 <=? port) && (port <=? 65535))) eqn:Ep; simpl.
    { split; [discriminate|]. intros (_ & Hp & _). apply Hport in Hp.
      congruence. }
    apply Hport in Ep.
    destruct (forallb isspace tp); simpl.
    + split; [discriminate|]. intros (_ & _ & H). discriminate.
    + split; [|reflexivity]. intros _. now repeat split.
Qed.

(** X14.  The client identifier is the caller's if one is given and is not
    empty; with none or an empty one it is ["direct-method-client-"]
    followed by the first eight characters of the hexadecimal UUID, 29
    characters in all when the UUID has at least eight.  The engine is
    created with that identifier. *)
Theorem client_id_is_given_or_generated
    (host : str) (port : Z) (tp : str) (cid : option str) (hex : str)
    (w w' : World) (c : DirectMethodMqttClient) :
  __init__ host port tp cid hex w = (w', Ok c) ->
  (forall given, cid = Some given -> given <> [] -> _client_id c = given) /\
  (cid = None \/ cid = Some [] ->
   _client_id c = generated_client_id hex /\
   ((8 <= List.length hex)%nat -> List.length (_client_id c) = 29%nat)) /\
  w' = w_call (mqtt_Client (_client_id c) MQTTv311) w.
Proof.
  unfold __init__.
  destruct (not_ (strip host)); [discriminate|].
  destruct (negb ((1 <=? port) && (port <=? 65535))); [discriminate|].
  destruct (not_ (strip tp)); [discriminate|].
  intros [= <- <-]. cbn [_client_id]. split; [|split; [|reflexivity]].
  - intros given -> Hg. destruct given; [congruence|reflexivity].
  - assert (Hlen : (8 <= List.length hex)%nat ->
                   List.length (generated_client_id hex) = 29%nat).
    { intros Hlen. unfold generated_client_id, slice_to.
      rewrite length_app, length_firstn.
      change (List.length (text "direct-method-client-")) with 21%nat. lia. }
    intros [-> | ->]; (split; [reflexivity|exact Hlen]).
Qed.

(* ================================================================== *)
(** ** The further properties at the sample runs *)

Lemma identity_survives_every_run_witness :
  constructed Samples.localhost 1883 Samples.test_topic
              (Some (text "sensor-1")) Samples.hex quiet = Ok Scenes.named /\
  (fuel_for Scenes.day <= 50)%nat /\
  exists s,
    run 50 Scenes.day Scenes.named = Some s /\
    topic s = Samples.test_topic /\
    broker_info s = (Samples.localhost, 1883) /\
    client_id s = client_id Scenes.named.
Proof.
  assert (Hf : (fuel_for Scenes.day <= 50)%nat) by (vm_compute; lia).
  split; [reflexivity|]. split; [exact Hf|].
  exact (identity_survives_every_run
           Samples.localhost 1883 Samples.test_topic (Some (text "sensor-1"))
           Samples.hex quiet Scenes.named 50 Scenes.day eq_refl Hf).
Defined.

Lemma every_engine_call_is_wire_conformant_witness :
  io quiet = [] /\
  constructed Samples.localhost 1883 Samples.test_topic
              (Some (text "sensor-1")) Samples.hex quiet = Ok Scenes.named /\
  (fuel_for Scenes.day <= 50)%nat /\
  exists s,
    run 50 Scenes.day Scenes.named = Some s /\
    Forall (wire_conformant Samples.localhost 1883 Samples.test_topic
                            (client_id Scenes.named))
           (calls_of (io (world s))).
Proof.
  assert (Hf : (fuel_for Scenes.day <= 50)%nat) by (vm_compute; lia).
  split; [reflexivity|]. split; [reflexivity|]. split; [exact Hf|].
  exact (every_engine_call_is_wire_conformant
           Samples.localhost 1883 Samples.test_topic (Some (text "sensor-1"))
           Samples.hex quiet Scenes.named 50 Scenes.day eq_refl eq_refl Hf).
Defined.

Lemma publish_succeeds_exactly_when_sent_witness :
  text "on" <> [] /\
  is_connected Samples.connected_state = true /\
  snd (publish (text "on") (Ok 0) Samples.connected_state) = Ok tt /\
  io (world (fst (publish (text "on") (Ok 0) Samples.connected_state)))
  = Call (client_publish (topic Samples.connected_state) (text "on") 0)
      :: io (world Samples.connected_state) /\
  fst (publish (text "on") (Ok 0) Samples.fresh) = Samples.fresh.
Proof.
  assert (Hm : text "on" <> []) by discriminate.
  destruct (publish_succeeds_exactly_when_sent
              (text "on") (Ok 0) Samples.connected_state)
    as (Hiff & Hio & _ & _).
  destruct (publish_succeeds_exactly_when_sent
              (text "on") (Ok 0) Samples.fresh)
    as (_ & _ & Hsame & _).
  split; [exact Hm|]. split; [reflexivity|].
  split; [apply Hiff; repeat split; exact Hm|].
  split; [exact (Hio Hm eq_refl)|].
  apply Hsame. right. reflexivity.
Defined.

Lemma publish_raises_ValueError_or_RuntimeError_witness :
  snd (publish (text "on") (Raise Scenes.payload_refused)
               Samples.connected_state)
  = Raise (RuntimeError_ [Lit "Failed to publish message: ";
                          Lit "Payload too large"]
                         (Some Scenes.payload_refused)) /\
  isinstance (RuntimeError_ [Lit "Failed to publish message: ";
                             Lit "Payload too large"]
                            (Some Scenes.payload_refused)) RuntimeError = true.
Proof.
  assert (H : snd (publish (text "on") (Raise Scenes.payload_refused)
                           Samples.connected_state)
              = Raise (RuntimeError_ [Lit "Failed to publish message: ";
                                      Lit "Payload too large"]
                                     (Some Scenes.payload_refused)))
    by reflexivity.
  split; [exact H|].
  destruct (publish_raises_ValueError_or_RuntimeError _ _ _ _ H)
    as [(Hm & _) | (_ & Hi & _)]; [discriminate Hm|exact Hi].
Defined.

Lemma subscribe_registers_on_every_call_witness :
  is_connected Samples.connected_state = true /\
  is_connected Samples.fresh = false /\
  snd (subscribe (Ok (0, 1)) Samples.connected_state) = Ok tt /\
  io (world (fst (subscribe (Ok (0, 2))
                    (fst (subscribe (Ok (0, 1)) Samples.connected_state)))))
  = Call (client_subscribe (topic Samples.connected_state) 0)
      :: Call (client_subscribe (topic Samples.connected_state) 0)
      :: io (world Samples.connected_state) /\
  fst (subscribe (Ok (0, 1)) Samples.fresh) = Samples.fresh.
Proof.
  destruct (subscribe_registers_on_every_call (Ok (0, 1)) Samples.connected_state)
    as (Hiff & _ & Htwice & _ & _).
  destruct (subscribe_registers_on_every_call (Ok (0, 1)) Samples.fresh)
    as (_ & _ & _ & Hsame & _).
  split; [reflexivity|]. split; [reflexivity|].
  split; [apply Hiff; split; [reflexivity|now exists 1]|].
  split; [exact (Htwice eq_refl (Ok (0, 2)))|].
  exact (Hsame eq_refl).
Defined.

Lemma disconnect_twice_is_disconnect_once_witness :
  text "on" <> [] /\
  io (world (fst (disconnect (Ok 0)
                    (fst (disconnect (Raise Samples.socket_closed)
                                     Samples.connected_state)))))
  = io (world (fst (disconnect (Raise Samples.socket_closed)
                               Samples.connected_state))) /\
  snd (publish (text "on") (Ok 0)
               (fst (disconnect (Raise Samples.socket_closed)
                                Samples.connected_state)))
  = Raise not_connected.
Proof.
  assert (Hm : text "on" <> []) by discriminate.
  destruct (disconnect_twice_is_disconnect_once
              (Raise Samples.socket_closed) (Ok 0) Samples.connected_state)
    as (_ & Hio & Hpub & _).
  split; [exact Hm|]. split; [exact Hio|].
  exact (Hpub (text "on") (Ok 0) Hm).
Defined.

Lemma connect_success_leaves_loop_running_witness :
  is_connected Samples.fresh = false /\
  connect 2 5 Samples.acked Samples.fresh
  = Some (Samples.connected_state, Ok tt) /\
  transport_connect Samples.acked = Ok MQTT_ERR_SUCCESS /\
  is_connected Samples.connected_state = true /\
  In (on_connect 0) (List.concat (deliveries Samples.acked)) /\
  exists evs,
    io (world Samples.connected_state)
    = map Handler evs
        ++ Call client_loop_start
        :: Call (client_connect (_broker_host (self Samples.fresh))
                                (_broker_port (self Samples.fresh)) 60)
        :: io (world Samples.fresh).
Proof.
  assert (Hc : connect 2 5 Samples.acked Samples.fresh
               = Some (Samples.connected_state, Ok tt)) by reflexivity.
  split; [reflexivity|]. split; [exact Hc|].
  exact (connect_success_leaves_loop_running
           2 5 Samples.acked Samples.fresh Samples.connected_state eq_refl Hc).
Defined.

Lemma unacknowledged_connect_times_out_witness :
  is_connected Samples.fresh = false /\
  transport_connect Samples.refused = Ok MQTT_ERR_SUCCESS /\
  ~ In (on_connect 0) (List.concat (deliveries Samples.refused)) /\
  (poll_bound 5 <= 50)%nat /\
  exists s',
    connect 50 5 Samples.refused Samples.fresh
    = Some (s', Raise (timeout_error 5)) /\
    is_connected s' = false /\
    (5 <= clock (world s') - clock (world Samples.fresh))%Q.
Proof.
  assert (Hno : ~ In (on_connect 0) (List.concat (deliveries Samples.refused))).
  { simpl. intros [H|H]; [discriminate H|exact H]. }
  assert (Hf : (poll_bound 5 <= 50)%nat) by (vm_compute; lia).
  split; [reflexivity|]. split; [reflexivity|]. split; [exact Hno|].
  split; [exact Hf|].
  exact (unacknowledged_connect_times_out
           50 5 Samples.refused Samples.fresh eq_refl eq_refl Hno Hf).
Defined.




Lemma del_never_raises_witness :
  is_connected Samples.fresh = false /\
  is_connected Samples.connected_state = true /\
  fst (__del__ (Ok 0) Samples.fresh) = Samples.fresh /\
  __del__ (Raise Samples.socket_closed) Samples.connected_state
  = disconnect (Raise Samples.socket_closed) Samples.connected_state.
Proof.
  destruct (del_never_raises (Ok 0) Samples.fresh) as (_ & _ & Hsilent & _).
  destruct (del_never_raises (Raise Samples.socket_closed)
                             Samples.connected_state) as (_ & _ & _ & Hsame).
  split; [reflexivity|]. split; [reflexivity|].
  split; [exact (Hsilent eq_refl)|exact (Hsame eq_refl)].
Defined.

Lemma construction_reports_first_failure_witness :
  forallb isspace (text "  ") = true /\
  forallb isspace Samples.localhost = false /\
  (0 < 1 \/ 65535 < 0) /\
  1 <= 1883 <= 65535 /\
  forallb isspace (text " ") = true /\
  __init__ (text "  ") 0 (text " ") None Samples.hex quiet
  = (quiet, Raise (ValueError_ "Broker host cannot be empty")) /\
  __init__ Samples.localhost 0 (text " ") None Samples.hex quiet
  = (quiet, Raise (ValueError_ "Broker port must be between 1 and 65535")) /\
  __init__ Samples.localhost 1883 (text " ") None Samples.hex quiet
  = (quiet, Raise (ValueError_ "Topic cannot be empty")).
Proof.
  assert (Hp0 : 0 < 1 \/ 65535 < 0) by (left; lia).
  assert (Hp : 1 <= 1883 <= 65535) by lia.
  split; [reflexivity|]. split; [reflexivity|]. split; [exact Hp0|].
  split; [exact Hp|]. split; [reflexivity|].
  split; [|split].
  - exact (proj1 (construction_reports_first_failure
                    (text "  ") 0 (text " ") None Samples.hex quiet) eq_refl).
  - exact (proj1 (proj2 (construction_reports_first_failure
                           Samples.localhost 0 (text " ") None Samples.hex
                           quiet)) eq_refl Hp0).
  - exact (proj1 (proj2 (proj2 (construction_reports_first_failure
                                  Samples.localhost 1883 (text " ") None
                                  Samples.hex quiet))) eq_refl Hp eq_refl).
Defined.

Lemma client_id_is_given_or_generated_witness :
  __init__ Samples.localhost 1883 Samples.test_topic (Some (text "sensor-1"))
           Samples.hex quiet
  = (world Scenes.named, Ok (self Scenes.named)) /\
  __init__ Samples.localhost 1883 Samples.test_topic (Some [])
           Samples.hex quiet
  = (world Samples.fresh, Ok (self Samples.fresh)) /\
  text "sensor-1" <> [] /\
  (8 <= List.length Samples.hex)%nat /\
  _client_id (self Scenes.named) = text "sensor-1" /\
  _client_id (self Samples.fresh) = generated_client_id Samples.hex /\
  List.length (_client_id (self Samples.fresh)) = 29%nat.
Proof.
  assert (H1 : __init__ Samples.localhost 1883 Samples.test_topic
                        (Some (text "sensor-1")) Samples.hex quiet
               = (world Scenes.named, Ok (self Scenes.named))) by reflexivity.
  assert (H2 : __init__ Samples.localhost 1883 Samples.test_topic (Some [])
                        Samples.hex quiet
               = (world Samples.fresh, Ok (self Samples.fresh))) by reflexivity.
  assert (Hg : text "sensor-1" <> []) by discriminate.
  assert (Hlen : (8 <= List.length Samples.hex)%nat) by (vm_compute; lia).
  destruct (client_id_is_given_or_generated _ _ _ _ _ _ _ _ H1) as (Hgiven & _ & _).
  destruct (client_id_is_given_or_generated _ _ _ _ _ _ _ _ H2) as (_ & Hgen & _).
  destruct (Hgen (or_intror eq_refl)) as [Hid Hl].
  split; [exact H1|]. split; [exact H2|]. split; [exact Hg|].
  split; [exact Hlen|].
  split; [exact (Hgiven (text "sensor-1") eq_refl Hg)|].
  split; [exact Hid|exact (Hl Hlen)].
Defined.

(* ================================================================== *)
(** ** Properties of the release-notes tool *)

Import release_notes.

(* ------------------------------------------------------------------ *)
(** *** Reading the log *)

Lemma split_once_two (sep : N) (s h m : str) :
  split_once sep s = [h; m] -> s = h ++ sep :: m /\ ~ In sep h.
Proof.
  revert h. induction s as [|c s IH]; intros h; simpl; [discriminate|].
  destruct (c =? sep)%N eqn:E.
  - apply N.eqb_eq in E. subst c. intros [= <- <-]. split; [reflexivity|].
    intros [].
  - apply N.eqb_neq in E.
    destruct (split_once sep s) as [|part parts] eqn:Es; [discriminate|].
    intros [= <- ->]. destruct (IH part eq_refl) as [-> Hin].
    split; [reflexivity|]. intros [H|H]; [congruence|contradiction].
Qed.

Lemma split_once_app (sep : N) (h m : str) :
  ~ In sep h -> split_once sep (h ++ sep :: m) = [h; m].
Proof.
  induction h as [|c h IH]; intros Hin; simpl.
  - now rewrite N.eqb_refl.
  - destruct (c =? sep)%N eqn:E.
    + apply N.eqb_eq in E. exfalso. apply Hin. now left.
    + rewrite IH; [reflexivity|]. intros H. apply Hin. now right.
Qed.

Lemma add_line_acc (acc : list commit) (line : str) :
  add_line acc line = acc ++ add_line [] line.
Proof.
  unfold add_line. destruct (negb (not_ (strip line))).
  - destruct (split_once space line) as [|h [|m [|x l]]];
      now rewrite ?app_nil_r.
  - now rewrite app_nil_r.
Qed.

Lemma add_lines (lines : list str) (acc : list commit) :
  fold_left add_line lines acc = acc ++ flat_map (add_line []) lines.
Proof.
  revert acc. induction lines as [|line lines IH]; intros acc; simpl.
  - now rewrite app_nil_r.
  - rewrite IH, add_line_acc, <- app_assoc. reflexivity.
Qed.

Lemma add_line_in (c : commit) (line : str) :
  In c (add_line [] line) ->
  line = hash c ++ space :: message c /\ ~ In space (hash c).
Proof.
  unfold add_line. destruct (negb (not_ (strip line))); [|intros []].
  destruct (split_once space line) as [|h [|m [|x l]]] eqn:E.
  - intros [].
  - intros [].
  - intros [<- | []]. simpl. exact (split_once_two _ _ _ _ E).
  - intros [].
Qed.

(** X15.  Every commit read from the log is a line of it.  Whatever the
    shell prints, each commit that [get_git_commits_since_tag] returns
    comes from a line of the stripped output of the [git log] command, cut
    at that line's first space: the hash holds no space and hash, space
    and message make up the line. *)
Theorem parsed_commits_are_lines_of_the_log
    (shell : str -> result str) (tag : option str)
    (printed : list fstring) (commits : list commit) :
  get_git_commits_since_tag shell tag = (printed, Ok commits) ->
  forall c, In c commits ->
    ~ In space (hash c) /\
    exists stdout,
      shell (git_log_command tag) = Ok stdout /\
      In (hash c ++ space :: message c) (split newline (strip stdout)).
Proof.
  unfold get_git_commits_since_tag, run_command.
  destruct (shell (git_log_command tag)) as [stdout|e].
  - destruct (not_ (strip stdout)).
    + intros [= _ <-] c [].
    + intros [= _ <-] c Hin. rewrite add_lines in Hin. simpl in Hin.
      apply in_flat_map in Hin. destruct Hin as (line & Hline & Hc).
      apply add_line_in in Hc. destruct Hc as [-> Hno].
      split; [exact Hno|]. now exists stdout.
  - destruct (isinstance e CalledProcessError).
    + intros [= _ <-] c [].
    + discriminate.
Qed.

Lemma last_app_nonempty (a b : str) (d : N) :
  b <> [] -> last (a ++ b) d = last b d.
Proof.
  intros Hb. induction a as [|x a IH]; [reflexivity|].
  simpl. destruct (a ++ b) eqn:E; [|exact IH].
  apply app_eq_nil in E. destruct E as [_ E]. contradiction.
Qed.

Lemma strip_fixed (s : str) (c : N) (r : str) :
  s = c :: r -> isspace c = false -> isspace (last s space) = false ->
  strip s = s.
Proof.
  intros Hs Hc Hl. unfold strip, rstrip.
  assert (E : lstrip s = s) by (subst s; simpl; now rewrite Hc).
  rewrite E.
  assert (Hne : s <> []) by (subst s; discriminate).
  rewrite (app_removelast_last space Hne) at 1.
  rewrite rev_app_distr. simpl. rewrite Hl.
  change (last s space :: rev (removelast s))
    with (rev [last s space] ++ rev (removelast s)).
  rewrite <- rev_app_distr, rev_involutive.
  symmetry. exact (app_removelast_last space Hne).
Qed.

Lemma split_line (line : str) (rest : str) :
  ~ In newline line ->
  split newline (line ++ newline :: rest) = line :: split newline rest.
Proof.
  induction line as [|c line IH]; intros Hin; simpl.
  - reflexivity.
  - destruct (c =? newline)%N eqn:E.
    + apply N.eqb_eq in E. exfalso. apply Hin. now left.
    + rewrite IH; [reflexivity|]. intros H. apply Hin. now right.
Qed.

Lemma split_last_line (line : str) :
  ~ In newline line -> split newline line = [line].
Proof.
  induction line as [|c line IH]; intros Hin; simpl.
  - reflexivity.
  - destruct (c =? newline)%N eqn:E.
    + apply N.eqb_eq in E. exfalso. apply Hin. now left.
    + rewrite IH; [reflexivity|]. intros H. apply Hin. now right.
Qed.

Lemma split_join (lines : list str) :
  lines <> [] -> Forall (fun line => ~ In newline line) lines ->
  split newline (join [newline] lines) = lines.
Proof.
  induction lines as [|line lines IH]; intros Hne Hall; [congruence|].
  inversion Hall as [|? ? Hline Hrest]; subst.
  destruct lines as [|line' lines].
  - simpl. now apply split_last_line.
  - change (join [newline] (line :: line' :: lines))
      with (line ++ newline :: join [newline] (line' :: lines)).
    rewrite split_line by exact Hline.
    rewrite IH; [reflexivity|discriminate|exact Hrest].
Qed.

Lemma nonspace_not_in (ch : N) (h : str) :
  isspace ch = true -> Forall (fun x => isspace x = false) h -> ~ In ch h.
Proof.
  intros Hch Hall Hin. rewrite Forall_forall in Hall.
  specialize (Hall _ Hin). congruence.
Qed.

Lemma last_join_nonspace (lines : list str) :
  lines <> [] ->
  Forall (fun line => isspace (last line space) = false) lines ->
  isspace (last (join [newline] lines) space) = false.
Proof.
  induction lines as [|line lines IH]; intros Hne Hall; [congruence|].
  inversion Hall as [|? ? Hline Hrest]; subst.
  destruct lines as [|line' lines]; [exact Hline|].
  change (join [newline] (line :: line' :: lines))
    with (line ++ newline :: join [newline] (line' :: lines)).
  assert (IH' := IH ltac:(discriminate) Hrest).
  rewrite last_app_nonempty by discriminate.
  destruct (join [newline] (line' :: lines)) eqn:E; [discriminate IH'|].
  exact IH'.
Qed.

Lemma add_line_well_formed (c : commit) :
  hash c <> [] -> Forall (fun ch => isspace ch = false) (hash c) ->
  add_line [] (hash c ++ space :: message c) = [c].
Proof.
  intros Hne Hall. unfold add_line.
  assert (Hblank : not_ (strip (hash c ++ space :: message c)) = false).
  { destruct (not_ (strip (hash c ++ space :: message c))) eqn:E;
      [|reflexivity].
    apply not_strip_iff in E. destruct (hash c) as [|ch h]; [congruence|].
    inversion Hall as [|? ? Hch _]; subst. simpl in E.
    rewrite Hch in E. discriminate. }
  rewrite Hblank. simpl.
  rewrite split_once_app by (now apply nonspace_not_in).
  now destruct c.
Qed.

(** X16.  Reading the log back gives the commits.  If the shell answers
    the [git log] command with the one-line log of a list of commits whose
    hashes are not empty and hold no whitespace and whose messages hold no
    newline and end with a character that is not whitespace, then
    [get_git_commits_since_tag] returns exactly these commits, in their
    order, and prints nothing. *)
Theorem oneline_log_round_trip
    (shell : str -> result str) (tag : option str) (commits : list commit) :
  Forall (fun c => hash c <> [] /\
                   Forall (fun ch => isspace ch = false) (hash c) /\
                   ~ In newline (message c) /\
                   isspace (last (message c) space) = false) commits ->
  shell (git_log_command tag) = Ok (oneline_log commits) ->
  get_git_commits_since_tag shell tag = ([], Ok commits).
Proof.
  intros Hwf Hshell. unfold get_git_commits_since_tag, run_command.
  rewrite Hshell. destruct commits as [|c0 cs]; [reflexivity|].
  set (lines := map (fun c => hash c ++ space :: message c) (c0 :: cs)).
  assert (Hlines : lines <> []) by discriminate.
  assert (Hnl : Forall (fun line => ~ In newline line) lines).
  { unfold lines. apply Forall_map. revert Hwf. apply Forall_impl.
    intros c (_ & Hh & Hm & _) Hin. apply in_app_or in Hin.
    destruct Hin as [Hin | [Hin | Hin]].
    - now apply (nonspace_not_in newline (hash c)).
    - discriminate.
    - contradiction. }
  assert (Hlast : Forall (fun line => isspace (last line space) = false) lines).
  { unfold lines. apply Forall_map. revert Hwf. apply Forall_impl.
    intros c (_ & _ & _ & Hl).
    rewrite last_app_nonempty by discriminate.
    destruct (message c) as [|m ms]; [discriminate Hl|exact Hl]. }
  assert (Hfirst : exists ch r, oneline_log (c0 :: cs) = ch :: r
                                /\ isspace ch = false).
  { inversion Hwf as [|? ? (Hne & Hh & _) _]; subst.
    destruct (hash c0) as [|ch h] eqn:E; [congruence|].
    inversion Hh as [|? ? Hch _]; subst.
    exists ch. unfold oneline_log. simpl. rewrite E.
    destruct cs; simpl; eexists; (split; [reflexivity|exact Hch]). }
  destruct Hfirst as (ch & r & Hlog & Hch).
  assert (Hstrip : strip (oneline_log (c0 :: cs)) = oneline_log (c0 :: cs)).
  { apply (strip_fixed _ ch r Hlog Hch).
    exact (last_join_nonspace lines Hlines Hlast). }
  rewrite Hstrip. rewrite Hlog at 1. cbn [not_].
  unfold oneline_log. fold lines. rewrite (split_join lines Hlines Hnl).
  rewrite add_lines, app_nil_l. f_equal. f_equal.
  unfold lines. clear -Hwf. revert Hwf. generalize (c0 :: cs). intros l Hwf.
  induction Hwf as [|c cs' (Hne & Hh & _) _ IH]; [reflexivity|].
  cbn [map flat_map]. rewrite (add_line_well_formed c Hne Hh), IH.
  reflexivity.
Qed.

(** X17.  Without output there are no commits.  When the [git log] command
    fails with a CalledProcessError, the error is printed and the list of
    commits is empty; when the command prints nothing but whitespace the
    list is empty as well; any other exception of the shell is passed on to
    the caller. *)
Theorem no_output_gives_no_commits
    (shell : str -> result str) (tag : option str) :
  (forall e, shell (git_log_command tag) = Raise e ->
     isinstance e CalledProcessError = true ->
     get_git_commits_since_tag shell tag
     = ([Lit "Error running command '" :: FStr (git_log_command tag)
           :: Lit "': " :: exn_str e], Ok [])) /\
  (forall stdout, shell (git_log_command tag) = Ok stdout ->
     forallb isspace stdout = true ->
     get_git_commits_since_tag shell tag = ([], Ok [])) /\
  (forall e, shell (git_log_command tag) = Raise e ->
     isinstance e CalledProcessError = false ->
     get_git_commits_since_tag shell tag = ([], Raise e)).
Proof.
  unfold get_git_commits_since_tag, run_command. split; [|split].
  - intros e -> ->. reflexivity.
  - intros stdout -> Hblank. apply not_strip_iff in Hblank.
    now rewrite Hblank.
  - intros e -> ->. reflexivity.
Qed.

(* ------------------------------------------------------------------ *)
(** *** Sorting and formatting commits *)

Lemma categorize_category_of (cats : categories) (c : commit) :
  categorize cats c = append_to (category_of (message c)) c cats.
Proof.
  unfold categorize, category_of.
  now destruct (first_match patterns (message c)).
Qed.

Lemma categorize_all (commits : list commit) (cats : categories)
    (k : category) :
  fold_left categorize commits cats k
  = cats k ++ filter (fun c => if category_eq_dec (category_of (message c)) k
                               then true else false) commits.
Proof.
  revert cats. induction commits as [|c commits IH]; intros cats; simpl.
  - now rewrite app_nil_r.
  - rewrite IH, categorize_category_of. unfold append_to.
    destruct (category_eq_dec k (category_of (message c))) as [E|E];
      destruct (category_eq_dec (category_of (message c)) k) as [E'|E'];
      try congruence.
    now rewrite <- app_assoc.
Qed.

(** X18.  [categorize_commits] sorts every commit into exactly one
    category and keeps the order of the log: each category holds, in the
    order of the input, exactly the commits whose message falls in it (the
    first category whose pattern matches, [other] when none does), so the
    sizes of the nine categories add up to the number of commits. *)
Theorem every_commit_in_exactly_one_category (commits : list commit) :
  (forall k,
      categorize_commits commits k
      = filter (fun c => if category_eq_dec (category_of (message c)) k
                         then true else false) commits) /\
  (List.length (categorize_commits commits features)
   + List.length (categorize_commits commits fixes)
   + List.length (categorize_commits commits docs)
   + List.length (categorize_commits commits performance)
   + List.length (categorize_commits commits refactor)
   + List.length (categorize_commits commits tests)
   + List.length (categorize_commits commits ci)
   + List.length (categorize_commits commits build)
   + List.length (categorize_commits commits other)
   = List.length commits)%nat.
Proof.
  assert (Hk : forall k,
             categorize_commits commits k
             = filter (fun c => if category_eq_dec (category_of (message c)) k
                                then true else false) commits).
  { intros k. unfold categorize_commits. now rewrite categorize_all. }
  split; [exact Hk|]. rewrite !Hk. clear Hk.
  induction commits as [|c commits IH]; [reflexivity|].
  cbn [filter List.length].
  destruct (category_of (message c)); simpl; lia.
Qed.

Lemma after_keyword_suffix (keyword subject rest : str) :
  after_keyword keyword subject = Some rest ->
  exists matched, subject = matched ++ rest.
Proof.
  revert subject. induction keyword as [|p keyword IH]; intros subject; simpl.
  - intros [= <-]. now exists [].
  - destruct subject as [|c subject]; [discriminate|].
    destruct (matches_letter p c); [|discriminate].
    intros H. destruct (IH _ H) as (matched & ->). now exists (c :: matched).
Qed.

Lemma after_colon_space_suffix (subject rest : str) :
  after_colon_space subject = Some rest -> subject = 58%N :: 32%N :: rest.
Proof.
  destruct subject as [|a [|b subject]]; simpl; try discriminate.
  - destruct a; try discriminate. repeat (destruct p; try discriminate).
  - unfold after_colon_space.
    destruct (N.eq_dec a 58) as [->|Ha].
    + destruct (N.eq_dec b 32) as [->|Hb].
      * now intros [= <-].
      * intros H. exfalso.
        destruct b as [|pb]; [discriminate H|].
        repeat (destruct pb as [pb|pb|]; try discriminate H); congruence.
    + intros H. exfalso.
      destruct a as [|pa]; [discriminate H|].
      repeat (destruct pa as [pa|pa|]; try discriminate H); congruence.
Qed.

Lemma after_scope_suffix (nonempty : bool) (subject rest : str) :
  after_scope nonempty subject = Some rest ->
  exists matched, subject = matched ++ 58%N :: 32%N :: rest.
Proof.
  revert nonempty. induction subject as [|c subject IH]; intros nonempty;
    simpl; [discriminate|].
  destruct (if (c =? 10)%N then None else after_scope true subject)
    as [r|] eqn:E.
  - intros [= ->]. destruct (c =? 10)%N; [discriminate|].
    destruct (IH _ E) as (matched & ->). now exists (c :: matched).
  - destruct (nonempty && (c =? 41)%N); [|discriminate].
    intros H. apply after_colon_space_suffix in H. subst subject.
    now exists [c].
Qed.

Lemma after_scope_colon_suffix (subject rest : str) :
  after_scope_colon subject = Some rest ->
  exists matched, subject = matched ++ 58%N :: 32%N :: rest.
Proof.
  assert (Hplain : after_colon_space subject = Some rest ->
                   exists matched, subject = matched ++ 58%N :: 32%N :: rest).
  { intros H. apply after_colon_space_suffix in H. now exists []. }
  unfold after_scope_colon. destruct subject as [|c subject]; [exact Hplain|].
  destruct (N.eq_dec c 40) as [->|Hc].
  - destruct (after_scope false subject) as [r|] eqn:E; [|exact Hplain].
    intros [= ->]. destruct (after_scope_suffix _ _ _ E) as (matched & ->).
    now exists (40%N :: matched).
  - intros H. apply Hplain.
    destruct c as [|p]; [exact H|].
    repeat (destruct p as [p|p|]; try exact H). congruence.
Qed.

(** What a conventional prefix is: it ends with a colon and a space. *)
Lemma conventional_prefix_suffix (keyword msg rest : str) :
  conventional_prefix keyword msg = Some rest ->
  exists dropped, msg = dropped ++ 58%N :: 32%N :: rest.
Proof.
  unfold conventional_prefix.
  destruct (after_keyword keyword msg) as [r|] eqn:E; [|discriminate].
  intros H. destruct (after_keyword_suffix _ _ _ E) as (m1 & ->).
  destruct (after_scope_colon_suffix _ _ H) as (m2 & ->).
  exists (m1 ++ m2). now rewrite <- app_assoc.
Qed.

Lemma without_prefix_first_match (ps : list (category * str)) (msg : str) :
  match first_match ps msg with
  | None => without_prefix (map snd ps) msg = msg
  | Some _ =>
    exists dropped,
      msg = dropped ++ 58%N :: 32%N :: without_prefix (map snd ps) msg
  end.
Proof.
  induction ps as [|[key keyword] ps IH]; simpl; [reflexivity|].
  destruct (conventional_prefix keyword msg) as [rest|] eqn:E.
  - exact (conventional_prefix_suffix _ _ _ E).
  - exact IH.
Qed.

(** X19.  [format_commit_message] and [categorize_commits] agree on what a
    conventional prefix is.  The line for a commit is ["- "], the cleaned
    message with its first character upper-cased, [" ("], the hash and
    [")"].  For a commit that falls in the category [other] the cleaned
    message is the whole message; for a commit in any other category it is
    what follows a dropped prefix that ends with a colon and a space.  A
    message that is nothing but its prefix gives a line with no text, and
    no error. *)
Theorem format_drops_the_prefix_categorize_matched
    (upper : N -> str) (c : commit) :
  exists clean,
    format_commit_message upper c
    = text "- "
      ++ match clean with [] => [] | first :: rest => upper first ++ rest end
      ++ text " (" ++ hash c ++ text ")" /\
    (category_of (message c) = other -> clean = message c) /\
    (category_of (message c) <> other ->
     exists dropped, message c = dropped ++ 58%N :: 32%N :: clean) /\
    (clean = [] ->
     format_commit_message upper c = text "-  (" ++ hash c ++ text ")").
Proof.
  exists (without_prefix keywords (message c)).
  split; [reflexivity|].
  pose proof (without_prefix_first_match patterns (message c)) as H.
  change (map snd patterns) with keywords in H.
  unfold category_of.
  destruct (first_match patterns (message c)) as [key|] eqn:E.
  - split; [|split].
    + intros ->. exfalso. revert E. unfold patterns. simpl.
      repeat (match goal with
              | |- context [conventional_prefix ?k ?m] =>
                destruct (conventional_prefix k m)
              end; [discriminate|]).
      discriminate.
    + intros _. exact H.
    + intros Hc. unfold format_commit_message. now rewrite Hc.
  - split; [|split].
    + intros _. exact H.
    + intros Hne. congruence.
    + intros Hc. unfold format_commit_message. now rewrite Hc.
Qed.

(* ------------------------------------------------------------------ *)
(** *** The tool at a sample log *)

Lemma parsed_commits_are_lines_of_the_log_witness :
  get_git_commits_since_tag (fun _ => Ok (oneline_log sample_log))
                            (Some (text "v1.0.0"))
  = ([], Ok sample_log) /\
  In {| hash := text "e4f5a6b"; message := text "Fix: handle empty payload" |}
     sample_log /\
  ~ In space (text "e4f5a6b") /\
  exists stdout,
    Ok (oneline_log sample_log) = Ok stdout /\
    In (text "e4f5a6b" ++ space :: text "Fix: handle empty payload")
       (split newline (strip stdout)).
Proof.
  assert (Hrun : get_git_commits_since_tag
                   (fun _ => Ok (oneline_log sample_log)) (Some (text "v1.0.0"))
                 = ([], Ok sample_log)) by (vm_compute; reflexivity).
  assert (Hin : In {| hash := text "e4f5a6b";
                      message := text "Fix: handle empty payload" |}
                   sample_log) by (right; left; reflexivity).
  split; [exact Hrun|]. split; [exact Hin|].
  exact (parsed_commits_are_lines_of_the_log
           (fun _ => Ok (oneline_log sample_log)) (Some (text "v1.0.0"))
           [] sample_log Hrun _ Hin).
Defined.

Lemma oneline_log_round_trip_witness :
  Forall (fun c => hash c <> [] /\
                   Forall (fun ch => isspace ch = false) (hash c) /\
                   ~ In newline (message c) /\
                   isspace (last (message c) space) = false) sample_log /\
  get_git_commits_since_tag (fun _ => Ok (oneline_log sample_log)) None
  = ([], Ok sample_log).
Proof.
  assert (Hwf : Forall (fun c => hash c <> [] /\
                                 Forall (fun ch => isspace ch = false) (hash c) /\
                                 ~ In newline (message c) /\
                                 isspace (last (message c) space) = false)
                       sample_log).
  { repeat (apply Forall_cons;
            [split; [discriminate|];
             split; [repeat (apply Forall_cons; [reflexivity|]); apply Forall_nil|];
             split; [simpl; intuition discriminate|reflexivity]|]).
    apply Forall_nil. }
  split; [exact Hwf|].
  exact (oneline_log_round_trip (fun _ => Ok (oneline_log sample_log)) None
                                sample_log Hwf eq_refl).
Defined.

Lemma no_output_gives_no_commits_witness :
  isinstance (mk_exn CalledProcessError [Lit "exit status 128"] None)
             CalledProcessError = true /\
  forallb isspace (text " " ++ [newline]) = true /\
  isinstance (mk_exn OSError [Lit "Too many open files"] None)
             CalledProcessError = false /\
  get_git_commits_since_tag
    (fun _ => Raise (mk_exn CalledProcessError [Lit "exit status 128"] None))
    None
  = ([[Lit "Error running command '";
       FStr (text "git log --oneline --no-merges"); Lit "': ";
       Lit "exit status 128"]], Ok []) /\
  get_git_commits_since_tag (fun _ => Ok (text " " ++ [newline])) None
  = ([], Ok []) /\
  get_git_commits_since_tag
    (fun _ => Raise (mk_exn OSError [Lit "Too many open files"] None)) None
  = ([], Raise (mk_exn OSError [Lit "Too many open files"] None)).
Proof.
  split; [reflexivity|]. split; [reflexivity|]. split; [reflexivity|].
  split; [|split].
  - exact (proj1 (no_output_gives_no_commits
                    (fun _ => Raise (mk_exn CalledProcessError
                                            [Lit "exit status 128"] None))
                    None) _ eq_refl eq_refl).
  - exact (proj1 (proj2 (no_output_gives_no_commits
                           (fun _ => Ok (text " " ++ [newline])) None))
                 _ eq_refl eq_refl).
  - exact (proj2 (proj2 (no_output_gives_no_commits
                           (fun _ => Raise (mk_exn OSError
                                              [Lit "Too many open files"] None))
                           None)) _ eq_refl eq_refl).
Defined.

Lemma format_drops_the_prefix_categorize_matched_witness :
  category_of (text "bump version") = other /\
  category_of (text "feat(client): add reconnect") <> other /\
  format_commit_message ascii_upper
    {| hash := text "0c1d2e3"; message := text "bump version" |}
  = text "- Bump version (0c1d2e3)" /\
  exists clean dropped,
    text "feat(client): add reconnect" = dropped ++ 58%N :: 32%N :: clean /\
    format_commit_message ascii_upper
      {| hash := text "a1b2c3d"; message := text "feat(client): add reconnect" |}
    = text "- "
      ++ match clean with
         | [] => []
         | first :: rest => ascii_upper first ++ rest
         end
      ++ text " (" ++ text "a1b2c3d" ++ text ")".
Proof.
  assert (Hother : category_of (text "bump version") = other) by reflexivity.
  assert (Hfeat : category_of (text "feat(client): add reconnect") <> other)
    by discriminate.
  split; [exact Hother|]. split; [exact Hfeat|]. split.
  - destruct (format_drops_the_prefix_categorize_matched
                ascii_upper
                {| hash := text "0c1d2e3"; message := text "bump version" |})
      as (clean & Hline & Hwhole & _).
    rewrite Hline, (Hwhole Hother). reflexivity.
  - destruct (format_drops_the_prefix_categorize_matched
                ascii_upper
                {| hash := text "a1b2c3d";
                   message := text "feat(client): add reconnect" |})
      as (clean & Hline & _ & Hdrop & _).
    destruct (Hdrop Hfeat) as (dropped & Hmsg).
    exists clean, dropped. split; [exact Hmsg|exact Hline].
Defined.
